(** * The dummy login handler of Tobira, embedded and verified

    The repository ships the same HTTP handler twice
    ([scripts/auth/login-handler.py] and [util/containers/login-handler.py]);
    the two files differ only in how the process binds its listening
    socket.  The handler itself, [DUMMY_USERS], [check_login] and
    [Handler.do_POST], is line for line the same in both, so one embedding
    covers both files.

    Layout: first the fragments of the Python runtime the handler calls
    ([str], [bytes], [int], [base64], [urllib.parse], [http.server]), then
    the handler, then the facts about it. *)

From Stdlib Require Import NArith ZArith List String Ascii Bool Lia.
From Stdlib Require Import Strings.Byte.
Import ListNotations.

Local Open Scope N_scope.

(** ** Python values *)

Module Py.

(** A Python [str] is a sequence of code points, a [bytes] object a
    sequence of octets. *)
Definition str := list N.
Definition bytes := list byte.

(** ASCII literals of the source, as code points. *)
Fixpoint lit (s : string) : str :=
  match s with
  | EmptyString => []
  | String c s' => N_of_ascii c :: lit s'
  end.

Fixpoint str_eqb (a b : str) : bool :=
  match a, b with
  | [], [] => true
  | x :: a', y :: b' => (x =? y) && str_eqb a' b'
  | _, _ => false
  end.

(** [s.startswith(prefix)] *)
Fixpoint startswith (s prefix : str) : bool :=
  match prefix, s with
  | [], _ => true
  | p :: prefix', c :: s' => (c =? p) && startswith s' prefix'
  | _ :: _, [] => false
  end.

(** The exceptions that can escape the handler. *)
Inductive exn :=
| TypeError | ValueError | OverflowError
| UnicodeDecodeError | UnicodeEncodeError
| KeyError | IndexError.

Inductive result (A : Type) :=
| Ok (a : A)
| Raise (e : exn).
Arguments Ok {A} a.
Arguments Raise {A} e.

Definition byte_of (n : N) : byte :=
  match Byte.of_N n with Some b => b | None => x00 end.

(** *** [str.encode()]: UTF-8, errors='strict'

    Lone surrogates have no UTF-8 form and make [encode] raise. *)
Definition encode_codepoint (c : N) : option bytes :=
  if c <? 0x80 then Some [byte_of c]
  else if c <? 0x800 then
    Some [byte_of (0xC0 + c / 64); byte_of (0x80 + c mod 64)]
  else if c <? 0x10000 then
    if (0xD800 <=? c) && (c <=? 0xDFFF) then None
    else Some [byte_of (0xE0 + c / 4096);
               byte_of (0x80 + (c / 64) mod 64);
               byte_of (0x80 + c mod 64)]
  else if c <? 0x110000 then
    Some [byte_of (0xF0 + c / 262144);
          byte_of (0x80 + (c / 4096) mod 64);
          byte_of (0x80 + (c / 64) mod 64);
          byte_of (0x80 + c mod 64)]
  else None.

(** The code points that have a UTF-8 form: all but the surrogates, up
    to 10FFFF. *)
Definition scalar_value (c : N) : Prop :=
  c < 0xD800 \/ (0xDFFF < c /\ c < 0x110000).

Fixpoint str_encode (s : str) : result bytes :=
  match s with
  | [] => Ok []
  | c :: s' =>
      match encode_codepoint c with
      | None => Raise UnicodeEncodeError
      | Some bs =>
          match str_encode s' with
          | Ok rest => Ok (bs ++ rest)
          | Raise e => Raise e
          end
      end
  end.

(** *** [bytes.decode()]: UTF-8, errors='strict' or 'replace'

    The decoder walks the octets once.  [pending] is a multi-octet
    sequence that has started: how many continuation octets are still
    due, the bits gathered so far, and the range the next octet must
    fall in (narrower than 80..BF right after E0, ED, F0 and F4, which
    excludes overlong forms, surrogates and values above 10FFFF). *)
Inductive errors := Strict | Replace.

Record pending := { needed : nat; acc : N; lo : N; hi : N }.

Inductive start :=
| Scalar (c : N)
| Lead (p : pending)
| BadStart.

Definition utf8_start (b : N) : start :=
  if b <? 0x80 then Scalar b
  else if b <? 0xC2 then BadStart
  else if b <? 0xE0 then
    Lead {| needed := 1; acc := b mod 32; lo := 0x80; hi := 0xBF |}
  else if b <? 0xF0 then
    Lead {| needed := 2; acc := b mod 16;
            lo := if b =? 0xE0 then 0xA0 else 0x80;
            hi := if b =? 0xED then 0x9F else 0xBF |}
  else if b <? 0xF5 then
    Lead {| needed := 3; acc := b mod 8;
            lo := if b =? 0xF0 then 0x90 else 0x80;
            hi := if b =? 0xF4 then 0x8F else 0xBF |}
  else BadStart.

(** One item per decoded code point, [None] for each malformed stretch
    (an octet that cannot start a sequence, or the longest prefix of a
    sequence that the next octet fails to continue, or a sequence cut
    off by the end of the input). *)
Fixpoint utf8_items (st : option pending) (bs : bytes) : list (option N) :=
  match bs with
  | [] => match st with None => [] | Some _ => [None] end
  | b :: tl =>
      let n := Byte.to_N b in
      let fresh :=
        match utf8_start n with
        | Scalar c => Some c :: utf8_items None tl
        | Lead p => utf8_items (Some p) tl
        | BadStart => None :: utf8_items None tl
        end in
      match st with
      | None => fresh
      | Some p =>
          if (lo p <=? n) && (n <=? hi p) then
            let c := acc p * 64 + n mod 64 in
            match needed p with
            | S (S k) =>
                utf8_items
                  (Some {| needed := S k; acc := c; lo := 0x80; hi := 0xBF |})
                  tl
            | _ => Some c :: utf8_items None tl
            end
          else None :: fresh
      end
  end.

Fixpoint all_decoded (items : list (option N)) : option str :=
  match items with
  | [] => Some []
  | Some c :: tl =>
      match all_decoded tl with Some s => Some (c :: s) | None => None end
  | None :: _ => None
  end.

Definition REPLACEMENT_CHARACTER : N := 0xFFFD.

Definition bytes_decode (mode : errors) (bs : bytes) : result str :=
  let items := utf8_items None bs in
  match mode with
  | Strict =>
      match all_decoded items with
      | Some s => Ok s
      | None => Raise UnicodeDecodeError
      end
  | Replace =>
      Ok (map (fun i => match i with
                        | Some c => c
                        | None => REPLACEMENT_CHARACTER
                        end) items)
  end.

(** *** [int(x)]

    [int(None)] raises [TypeError].  On a string, [int] skips white
    space at both ends, takes an optional sign, and then wants decimal
    digits, where single underscores may separate digits; anything else
    raises [ValueError], and so does a text with more than 4300 digits
    (the default limit on the conversion).

    The white space [int] skips is not that of [str.strip]: of the ASCII
    characters only tab, line feed, vertical tab, form feed, carriage
    return and the space count (the separators 1C to 1F do not); the
    white space characters beyond ASCII are first turned into spaces and
    so count too.

    Header values reach the handler decoded as ISO-8859-1, so their code
    points are below 256, where the only decimal digits are 0 to 9: the
    digits of other scripts are left out. *)
Definition int_space (c : N) : bool :=
  ((9 <=? c) && (c <=? 13)) || (c =? 32)
  || (c =? 0x85) || (c =? 0xA0) || (c =? 0x1680)
  || ((0x2000 <=? c) && (c <=? 0x200A))
  || (c =? 0x2028) || (c =? 0x2029) || (c =? 0x202F)
  || (c =? 0x205F) || (c =? 0x3000).

Fixpoint lstrip (s : str) : str :=
  match s with
  | [] => []
  | c :: tl => if int_space c then lstrip tl else s
  end.

Definition strip (s : str) : str := rev (lstrip (rev (lstrip s))).

Definition digit (c : N) : option N :=
  if (48 <=? c) && (c <=? 57) then Some (c - 48) else None.

Fixpoint digits (value : N) (after_digit : bool) (s : str) : option N :=
  match s with
  | [] => if after_digit then Some value else None
  | c :: tl =>
      if c =? 95 then
        if after_digit then digits value false tl else None
      else
        match digit c with
        | Some d => digits (value * 10 + d) true tl
        | None => None
        end
  end.

(** [sys.int_info.default_max_str_digits] *)
Definition MAX_STR_DIGITS : nat := 4300.

Definition count_digits (s : str) : nat :=
  List.length
    (filter (fun c => match digit c with Some _ => true | None => false end) s).

(** The digits after the sign: within the limit, and well formed. *)
Definition unsigned (s : str) : option N :=
  if (MAX_STR_DIGITS <? count_digits s)%nat then None else digits 0 false s.

Definition int_of_str (s : str) : result Z :=
  let signed :=
    match strip s with
    | 43 :: tl => option_map Z.of_N (unsigned tl)
    | 45 :: tl => option_map (fun n => Z.opp (Z.of_N n)) (unsigned tl)
    | tl => option_map Z.of_N (unsigned tl)
    end in
  match signed with
  | Some z => Ok z
  | None => Raise ValueError
  end.

Definition int (x : option str) : result Z :=
  match x with
  | None => Raise TypeError
  | Some s => int_of_str s
  end.

(** *** Decimal integers, as written

    What a decimal integer looks like, said without [int]: digits in
    groups joined by single underscores, behind an optional sign, with
    white space allowed before and after. *)
Definition is_digit (c : N) : Prop := 48 <= c <= 57.

Inductive digit_groups : str -> Prop :=
| last_digit (d : N) : is_digit d -> digit_groups [d]
| next_digit (d : N) (rest : str) :
    is_digit d -> digit_groups rest -> digit_groups (d :: rest)
| next_group (d : N) (rest : str) :
    is_digit d -> digit_groups rest -> digit_groups (d :: 95 :: rest).

Definition decimal_integer (v : str) : Prop :=
  exists lead sign ds trail,
    v = lead ++ sign ++ ds ++ trail /\
    Forall (fun c => int_space c = true) lead /\
    Forall (fun c => int_space c = true) trail /\
    (sign = [] \/ sign = [43] \/ sign = [45]) /\
    digit_groups ds.

(** Text as a header value holds it: decoded from ISO-8859-1. *)
Definition latin1 (v : str) : Prop := Forall (fun c => c < 256) v.

End Py.

(** ** [dict] *)

Module Dict.
Import Py.

(** A dictionary with string keys: the entries in insertion order, each
    key at most once. *)
Definition dict (V : Type) := list (str * V).

(** [d.get(key)] *)
Fixpoint get {V} (key : str) (d : dict V) : option V :=
  match d with
  | [] => None
  | (k, v) :: d' => if str_eqb k key then Some v else get key d'
  end.

(** [key in d] *)
Definition contains {V} (key : str) (d : dict V) : bool :=
  match get key d with Some _ => true | None => false end.

(** [d[key]] *)
Definition item {V} (key : str) (d : dict V) : result V :=
  match get key d with Some v => Ok v | None => Raise KeyError end.

(** [d[key] = v] *)
Fixpoint set {V} (key : str) (v : V) (d : dict V) : dict V :=
  match d with
  | [] => [(key, v)]
  | (k, v') :: d' =>
      if str_eqb k key then (k, v) :: d' else (k, v') :: set key v d'
  end.

End Dict.

(** ** [base64] *)

Module Base64.
Import Py.

Definition alphabet : bytes :=
  list_byte_of_string
    "ABCDEFGHIJKLMNOPQRSTUVWXYZabcdefghijklmnopqrstuvwxyz0123456789+/".

(** The padding character [=]. *)
Definition pad : byte := x3d.

Definition b64_char (sextet : N) : byte := nth (N.to_nat sextet) alphabet pad.

(** [base64.b64encode]: three octets become four characters; a last
    group of one or two octets is filled up with zero bits and padded. *)
Fixpoint b64encode (bs : bytes) : bytes :=
  match bs with
  | [] => []
  | [a] =>
      let a := Byte.to_N a in
      [b64_char (a / 4); b64_char (a mod 4 * 16); pad; pad]
  | [a; b] =>
      let a := Byte.to_N a in
      let b := Byte.to_N b in
      [b64_char (a / 4); b64_char (a mod 4 * 16 + b / 16);
       b64_char (b mod 16 * 4); pad]
  | a :: b :: c :: rest =>
      let a := Byte.to_N a in
      let b := Byte.to_N b in
      let c := Byte.to_N c in
      b64_char (a / 4) :: b64_char (a mod 4 * 16 + b / 16)
        :: b64_char (b mod 16 * 4 + c / 64) :: b64_char (c mod 64)
        :: b64encode rest
  end.

Definition b64_index (c : byte) : option N :=
  let n := Byte.to_N c in
  if (65 <=? n) && (n <=? 90) then Some (n - 65)
  else if (97 <=? n) && (n <=? 122) then Some (n - 71)
  else if (48 <=? n) && (n <=? 57) then Some (n + 4)
  else if n =? 43 then Some 62
  else if n =? 47 then Some 63
  else None.

(** The decoder a consumer of the headers applies (RFC 4648, standard
    alphabet, padding required): four characters at a time, padding
    only in the last group. *)
Fixpoint b64decode (cs : bytes) : option bytes :=
  match cs with
  | [] => Some []
  | c1 :: c2 :: c3 :: c4 :: rest =>
      match b64_index c1, b64_index c2 with
      | Some s1, Some s2 =>
          let b1 := byte_of (s1 * 4 + s2 / 16) in
          if Byte.eqb c4 pad then
            match rest with
            | [] =>
                if Byte.eqb c3 pad then Some [b1]
                else
                  match b64_index c3 with
                  | Some s3 => Some [b1; byte_of (s2 mod 16 * 16 + s3 / 4)]
                  | None => None
                  end
            | _ :: _ => None
            end
          else
            match b64_index c3, b64_index c4, b64decode rest with
            | Some s3, Some s4, Some tl =>
                Some (b1 :: byte_of (s2 mod 16 * 16 + s3 / 4)
                         :: byte_of (s3 mod 4 * 64 + s4) :: tl)
            | _, _, _ => None
            end
      | _, _ => None
      end
  | _ => None
  end.

(** Decoding a header value: the text must be ASCII. *)
Fixpoint ascii_bytes (s : str) : option bytes :=
  match s with
  | [] => Some []
  | c :: s' =>
      if c <? 128 then
        match ascii_bytes s' with
        | Some bs => Some (byte_of c :: bs)
        | None => None
        end
      else None
  end.

Definition b64decode_str (s : str) : option bytes :=
  match ascii_bytes s with
  | Some cs => b64decode cs
  | None => None
  end.

End Base64.

(** ** [urllib.parse] *)

Module Urllib.
Import Py.
Import Dict.

Definition is_empty (s : str) : bool :=
  match s with [] => true | _ :: _ => false end.

(** [s.split(sep)] for a one-character separator. *)
Fixpoint split (sep : N) (s : str) : list str :=
  match s with
  | [] => [[]]
  | c :: tl =>
      if c =? sep then [] :: split sep tl
      else
        match split sep tl with
        | first :: others => (c :: first) :: others
        | [] => [[c]]
        end
  end.

(** [s.split(sep, 1)]: one or two pieces. *)
Fixpoint split_once (sep : N) (s : str) : list str :=
  match s with
  | [] => [[]]
  | c :: tl =>
      if c =? sep then [[]; tl]
      else
        match split_once sep tl with
        | first :: others => (c :: first) :: others
        | [] => [[c]]
        end
  end.

(** [s.replace(old, new)] for single characters. *)
Definition replace (old new : N) (s : str) : str :=
  map (fun c => if c =? old then new else c) s.

(** [_hexdig = '0123456789ABCDEFabcdef'] *)
Definition hexdigit (c : N) : option N :=
  if (48 <=? c) && (c <=? 57) then Some (c - 48)
  else if (65 <=? c) && (c <=? 70) then Some (c - 55)
  else if (97 <=? c) && (c <=? 102) then Some (c - 87)
  else None.

(** [unquote_to_bytes] on ASCII text: [%XX] with two hex digits becomes
    one octet, any other [%] stays. *)
Fixpoint unquote_to_bytes (s : str) : bytes :=
  match s with
  | [] => []
  | c :: tl =>
      if c =? 37 then
        match tl with
        | h1 :: h2 :: rest =>
            match hexdigit h1, hexdigit h2 with
            | Some a, Some b => byte_of (a * 16 + b) :: unquote_to_bytes rest
            | _, _ => byte_of c :: unquote_to_bytes tl
            end
        | _ => byte_of c :: unquote_to_bytes tl
        end
      else byte_of c :: unquote_to_bytes tl
  end.

Definition unquote_run (reversed_run : str) : str :=
  match bytes_decode Replace (unquote_to_bytes (rev reversed_run)) with
  | Ok text => text
  | Raise _ => []
  end.

(** The maximal ASCII runs are unquoted and decoded as UTF-8 with
    errors='replace'; what lies between them passes through. *)
Fixpoint unquote_parts (reversed_run : str) (s : str) : str :=
  match s with
  | [] => unquote_run reversed_run
  | c :: tl =>
      if c <? 128 then unquote_parts (c :: reversed_run) tl
      else unquote_run reversed_run ++ c :: unquote_parts [] tl
  end.

(** [unquote(string)] with the defaults encoding='utf-8',
    errors='replace'. *)
Definition unquote (s : str) : str :=
  if negb (existsb (N.eqb 37) s) then s else unquote_parts [] s.

(** What one [&]-separated piece contributes in [parse_qsl] with the
    defaults keep_blank_values=False, strict_parsing=False. *)
Definition qsl_field (name_value : str) : list (str * str) :=
  if is_empty name_value then []
  else
    match split_once 61 name_value with
    | [name; value] =>
        if negb (is_empty value) then
          [(unquote (replace 43 32 name), unquote (replace 43 32 value))]
        else []
    | _ => []
    end.

Definition parse_qsl (qs : str) : list (str * str) :=
  flat_map qsl_field (if is_empty qs then [] else split 38 qs).

(** [parse_qs]: the values of each name, in order of appearance. *)
Definition add_pair (parsed_result : dict (list str)) (pair : str * str)
  : dict (list str) :=
  let (name, value) := pair in
  match get name parsed_result with
  | Some values => set name (values ++ [value]) parsed_result
  | None => set name [value] parsed_result
  end.

Definition parse_qs (qs : str) : dict (list str) :=
  fold_left add_pair (parse_qsl qs) [].

End Urllib.

(** ** [http.server.BaseHTTPRequestHandler] *)

Module HttpServer.
Import Py.

(** What goes out on the connection.  The [Server] and [Date] headers
    that [send_response] adds to every response are transport defaults
    and are left out; [Octets] is a write of body data. *)
Inductive chunk :=
| StatusLine (code : N)
| HeaderLine (keyword value : str)
| EndOfHeaders
| Octets (data : bytes).

(** The handler object of one request, and the standard output of the
    process. *)
Record handler := {
  headers : list (str * str);
  rfile : bytes;
  headers_buffer : list chunk;
  wfile : list chunk;
  stdout : list str
}.

Definition set_rfile (h : handler) (r : bytes) : handler :=
  {| headers := headers h; rfile := r; headers_buffer := headers_buffer h;
     wfile := wfile h; stdout := stdout h |}.

Definition set_headers_buffer (h : handler) (b : list chunk) : handler :=
  {| headers := headers h; rfile := rfile h; headers_buffer := b;
     wfile := wfile h; stdout := stdout h |}.

Definition set_wfile (h : handler) (w : list chunk) : handler :=
  {| headers := headers h; rfile := rfile h;
     headers_buffer := headers_buffer h; wfile := w; stdout := stdout h |}.

Definition set_stdout (h : handler) (o : list str) : handler :=
  {| headers := headers h; rfile := rfile h;
     headers_buffer := headers_buffer h; wfile := wfile h; stdout := o |}.

(** Code that reads and writes the handler and may raise. *)
Definition M (A : Type) := handler -> result A * handler.

Definition ret {A} (a : A) : M A := fun h => (Ok a, h).

Definition bind {A B} (c : M A) (k : A -> M B) : M B :=
  fun h =>
    match c h with
    | (Ok a, h') => k a h'
    | (Raise e, h') => (Raise e, h')
    end.

Definition lift {A} (r : result A) : M A := fun h => (r, h).

(** [str.lower()], on the ISO-8859-1 range header names live in. *)
Definition lower_char (c : N) : N :=
  if ((65 <=? c) && (c <=? 90))
     || ((0xC0 <=? c) && (c <=? 0xDE) && negb (c =? 0xD7))
  then c + 32 else c.

Definition lower (s : str) : str := map lower_char s.

(** [self.headers[name]]: the first header of that name, compared
    without regard to case, or [None]. *)
Fixpoint message_get (name : str) (hs : list (str * str)) : option str :=
  match hs with
  | [] => None
  | (k, v) :: hs' =>
      if str_eqb (lower k) (lower name) then Some v else message_get name hs'
  end.

Definition get_header (name : str) : M (option str) :=
  fun h => (Ok (message_get name (headers h)), h).

(** The largest index of the interpreter (a 64-bit build). *)
Definition PY_SSIZE_T_MAX : Z := 9223372036854775807.

(** The sizes [read] does not take: one that does not fit an index
    raises [OverflowError], one below -1 that does raises [ValueError]. *)
Definition refused (size : Z) : option exn :=
  if ((size <? - PY_SSIZE_T_MAX - 1) || (PY_SSIZE_T_MAX <? size))%Z
  then Some OverflowError
  else if (size <? -1)%Z then Some ValueError
  else None.

(** [self.rfile.read(size)]: [size] octets, or what is left before the
    end of the stream; all of it for -1.  The buffer of [size] octets
    that [read] sets up is taken to be granted: running out of memory is
    the host's failure, not the request's. *)
Definition rfile_read (size : Z) : M bytes :=
  fun h =>
    match refused size with
    | Some e => (Raise e, h)
    | None =>
        if (size =? -1)%Z then (Ok (rfile h), set_rfile h [])
        else
          let n := Z.to_nat size in
          (Ok (firstn n (rfile h)), set_rfile h (skipn n (rfile h)))
    end.

(** [Handler.log_request]: the handler class overrides the access log of
    the library with a method that returns at once. *)
Definition log_request (code : N) : M unit := ret tt.

(** [send_response] calls [log_request] and buffers the status line. *)
Definition send_response (code : N) : M unit :=
  bind (log_request code)
       (fun _ h =>
          (Ok tt, set_headers_buffer h (headers_buffer h ++ [StatusLine code]))).

Definition send_header (keyword value : str) : M unit :=
  fun h =>
    (Ok tt, set_headers_buffer h (headers_buffer h ++ [HeaderLine keyword value])).

Definition end_headers : M unit :=
  fun h =>
    (Ok tt,
     set_headers_buffer
       (set_wfile h (wfile h ++ headers_buffer h ++ [EndOfHeaders])) []).

(** [print(text)]: [stdout] holds the texts printed, one for each call.
    A text goes out as it is, so a line break inside it is a line break
    in the output. *)
Definition print (line : str) : M unit :=
  fun h => (Ok tt, set_stdout h (stdout h ++ [line])).

(** [http.HTTPStatus] *)
Definition NO_CONTENT : N := 204.
Definition BAD_REQUEST : N := 400.
Definition FORBIDDEN : N := 403.

End HttpServer.

(** ** The login handler *)

Module LoginHandler.
Import Py.
Import Dict.
Import HttpServer.

Notation "x <- c ;; k" := (bind c (fun x => k))
  (at level 61, c at next level, right associativity).
Notation "c ;;; k" := (bind c (fun _ => k))
  (at level 61, right associativity).

Definition DUMMY_USERS : dict (str * str) :=
  [ (lit "admin",
     (lit "Administrator",
      lit "ROLE_ADMIN, ROLE_USER_ADMIN, ROLE_ANONYMOUS, ROLE_USER, ROLE_SUDO"));
    (lit "sabine",
     (lit "Sabine Rudolfs",
      lit "ROLE_USER_SABINE, ROLE_ANONYMOUS, ROLE_USER, ROLE_INSTRUCTOR, ROLE_TOBIRA_MODERATOR"));
    (lit "augustus",
     (lit "Augustus Pagenk" ++ [0xE4] ++ lit "mper",
      lit "ROLE_USER_AUGUSTUS, ROLE_ANONYMOUS, ROLE_USER, ROLE_STUDENT")) ].

(** [[userid, display_name, roles]] *)
Definition user_data := (str * str * str)%type.

Definition check_login (userid password : str) : result (option user_data) :=
  if str_eqb password (lit "tobira") && contains userid DUMMY_USERS then
    match item userid DUMMY_USERS with
    | Ok (display_name, roles) => Ok (Some (userid, display_name, roles))
    | Raise e => Raise e
    end
  else Ok None.

Definition USERID_FIELD : str := lit "userid".
Definition PASSWORD_FIELD : str := lit "password".

(** [vars[field][0]] *)
Definition first_value (field : str) (vars : dict (list str)) : result str :=
  match item field vars with
  | Ok (v :: _) => Ok v
  | Ok [] => Raise IndexError
  | Raise e => Raise e
  end.

(** [b64 = lambda s: base64.b64encode(s.encode()).decode()] *)
Definition b64 (s : str) : result str :=
  match str_encode s with
  | Ok bs => bytes_decode Strict (Base64.b64encode bs)
  | Raise e => Raise e
  end.

Definition valid_content_type (content_type : option str) : bool :=
  match content_type with
  | None => false
  | Some v => startswith v (lit "application/x-www-form-urlencoded")
  end.

Definition do_POST : M unit :=
  content_type <- get_header (lit "content-type") ;;
  if negb (valid_content_type content_type) then
    send_response BAD_REQUEST ;;;
    end_headers
  else
    content_length <- get_header (lit "content-length") ;;
    length <- lift (int content_length) ;;
    body <- rfile_read length ;;
    text <- lift (bytes_decode Strict body) ;;
    let vars := Urllib.parse_qs text in
    if negb (contains USERID_FIELD vars && contains PASSWORD_FIELD vars) then
      send_response BAD_REQUEST ;;;
      end_headers
    else
      userid <- lift (first_value USERID_FIELD vars) ;;
      password <- lift (first_value PASSWORD_FIELD vars) ;;
      user_data <- lift (check_login userid password) ;;
      match user_data with
      | None =>
          print (lit "Incorrect login " ++ userid ++ lit ":" ++ password) ;;;
          send_response FORBIDDEN ;;;
          end_headers
      | Some (username, display_name, roles) =>
          print (lit "Successful login of " ++ username ++ lit " ("
                   ++ display_name ++ lit "): " ++ roles) ;;;
          send_response NO_CONTENT ;;;
          v <- lift (b64 username) ;;
          send_header (lit "x-tobira-username") v ;;;
          v <- lift (b64 display_name) ;;
          send_header (lit "x-tobira-user-display-name") v ;;;
          v <- lift (b64 roles) ;;
          send_header (lit "x-tobira-user-roles") v ;;;
          send_header (lit "x-accel-redirect") (lit "/~successful-login") ;;;
          end_headers
      end.

(** A request as it reaches [do_POST]: its headers and the octets the
    client sent after them; nothing buffered, written or printed yet. *)
Definition request (hs : list (str * str)) (body : bytes) : handler :=
  {| headers := hs; rfile := body; headers_buffer := []; wfile := [];
     stdout := [] |}.

(** What one run of [do_POST] on a request returns, sends and prints. *)
Definition returned (hs : list (str * str)) (body : bytes) : result unit :=
  fst (do_POST (request hs body)).

Definition response (hs : list (str * str)) (body : bytes) : list chunk :=
  wfile (snd (do_POST (request hs body))).

Definition logged (hs : list (str * str)) (body : bytes) : list str :=
  stdout (snd (do_POST (request hs body))).

Definition status_of (r : list chunk) : option N :=
  match r with
  | StatusLine code :: _ => Some code
  | _ => None
  end.

(** The octets [rfile.read(length)] hands over, and those it leaves. *)
Definition taken (length : Z) (body : bytes) : bytes :=
  if (length =? -1)%Z then body else firstn (Z.to_nat length) body.

Definition left_over (length : Z) (body : bytes) : bytes :=
  if (length =? -1)%Z then [] else skipn (Z.to_nat length) body.

(** The request gets as far as the form: its content type is accepted,
    its Content-Length converts to a length that [read] takes (-1 or an
    index), and the octets read are the UTF-8 form of [text]. *)
Definition carries_form (hs : list (str * str)) (body : bytes) (text : str)
  : Prop :=
  valid_content_type (message_get (lit "content-type") hs) = true /\
  exists length : Z,
    int (message_get (lit "content-length") hs) = Ok length /\
    (-1 <= length <= PY_SSIZE_T_MAX)%Z /\
    bytes_decode Strict (taken length body) = Ok text.



(** All the values a name has among the pairs, in order. *)
Fixpoint values_of (name : str) (pairs : list (str * str)) : list str :=
  match pairs with
  | [] => []
  | (k, v) :: tl =>
      if str_eqb k name then v :: values_of name tl else values_of name tl
  end.

(** The two log lines. *)
Definition incorrect_login (userid password : str) : str :=
  lit "Incorrect login " ++ userid ++ lit ":" ++ password.

Definition successful_login (username display_name roles : str) : str :=
  lit "Successful login of " ++ username ++ lit " (" ++ display_name
    ++ lit "): " ++ roles.

(** The tail of [do_POST], cut where the proofs cut it: from the
    credential check on, and from the parsed form on.  [do_POST_form]
    below shows that [do_POST] runs them. *)
Definition authenticate (userid password : str) : M unit :=
  user_data <- lift (check_login userid password) ;;
  match user_data with
  | None =>
      print (lit "Incorrect login " ++ userid ++ lit ":" ++ password) ;;;
      send_response FORBIDDEN ;;;
      end_headers
  | Some (username, display_name, roles) =>
      print (lit "Successful login of " ++ username ++ lit " ("
               ++ display_name ++ lit "): " ++ roles) ;;;
      send_response NO_CONTENT ;;;
      v <- lift (b64 username) ;;
      send_header (lit "x-tobira-username") v ;;;
      v <- lift (b64 display_name) ;;
      send_header (lit "x-tobira-user-display-name") v ;;;
      v <- lift (b64 roles) ;;
      send_header (lit "x-tobira-user-roles") v ;;;
      send_header (lit "x-accel-redirect") (lit "/~successful-login") ;;;
      end_headers
  end.

Definition handle_form (vars : dict (list str)) : M unit :=
  if negb (contains USERID_FIELD vars && contains PASSWORD_FIELD vars) then
    send_response BAD_REQUEST ;;;
    end_headers
  else
    userid <- lift (first_value USERID_FIELD vars) ;;
    password <- lift (first_value PASSWORD_FIELD vars) ;;
    authenticate userid password.

(** The handler after a request's form has been read. *)
Definition form_read (hs : list (str * str)) (rest : bytes) : handler :=
  {| headers := hs; rfile := rest; headers_buffer := []; wfile := [];
     stdout := [] |}.

(** The handler after an answer has gone out. *)
Definition answered (hs : list (str * str)) (rest : bytes)
           (sent : list chunk) (printed : list str) : handler :=
  {| headers := hs; rfile := rest; headers_buffer := []; wfile := sent;
     stdout := printed |}.

(** The success response for a user of the table. *)
Definition success_response (vu vd vr : str) : list chunk :=
  [ StatusLine NO_CONTENT;
    HeaderLine (lit "x-tobira-username") vu;
    HeaderLine (lit "x-tobira-user-display-name") vd;
    HeaderLine (lit "x-tobira-user-roles") vr;
    HeaderLine (lit "x-accel-redirect") (lit "/~successful-login");
    EndOfHeaders ].

End LoginHandler.

(** ** Sample requests *)

Module Samples.
Import Py.

Definition octets (s : string) : bytes := list_byte_of_string s.

(** The headers of a form submission that declares [content_length]. *)
Definition form_headers (content_length : string) : list (str * str) :=
  [ (lit "Content-Type", lit "application/x-www-form-urlencoded");
    (lit "Content-Length", lit content_length) ].

Definition admin_roles : str :=
  lit "ROLE_ADMIN, ROLE_USER_ADMIN, ROLE_ANONYMOUS, ROLE_USER, ROLE_SUDO".

Definition augustus_name : str :=
  lit "Augustus Pagenk" ++ [0xE4] ++ lit "mper".

End Samples.

(** ** Notions for the handler as a whole *)

Module Whole.
Import Py.
Import HttpServer.

(** The handler [h] with output [sent] and [printed] already on the
    connection and on standard output before it. *)
Definition extend (sent : list chunk) (printed : list str) (h : handler)
  : handler :=
  {| headers := headers h; rfile := rfile h;
     headers_buffer := headers_buffer h;
     wfile := sent ++ wfile h; stdout := printed ++ stdout h |}.

(** Code that only appends to [wfile] and [stdout] and does not look at
    what is there. *)
Definition framed {A} (c : M A) : Prop :=
  forall sent printed h,
    c (extend sent printed h)
    = (fst (c h), extend sent printed (snd (c h))).

(** The characters of base64 text: letters, digits, [+], [/] and [=]. *)
Definition b64_text_char (c : N) : bool :=
  ((65 <=? c) && (c <=? 90)) || ((97 <=? c) && (c <=? 122))
  || ((48 <=? c) && (c <=? 57)) || (c =? 43) || (c =? 47) || (c =? 61).



End Whole.

Import Py Dict HttpServer LoginHandler.

(** * Facts *)

(** ** Strings and dictionaries *)

Lemma str_eqb_eq (a b : str) : str_eqb a b = true <-> a = b.
Proof.
  revert b; induction a as [|x a IH]; intros [|y b]; simpl; split;
    try congruence; try reflexivity.
  - intros H. apply andb_prop in H as [Hx Ha].
    apply N.eqb_eq in Hx. apply IH in Ha. congruence.
  - intros H. injection H as -> ->. rewrite N.eqb_refl. simpl. now apply IH.
Qed.

Lemma str_eqb_refl (a : str) : str_eqb a a = true.
Proof. now apply str_eqb_eq. Qed.

Lemma str_eqb_neq (a b : str) : str_eqb a b = false <-> a <> b.
Proof.
  split.
  - intros H E. apply str_eqb_eq in E. congruence.
  - intros H. destruct (str_eqb a b) eqn:E; [|reflexivity].
    apply str_eqb_eq in E. contradiction.
Qed.

Lemma startswith_prefix (s prefix : str) :
  startswith s prefix = true <-> exists rest, s = prefix ++ rest.
Proof.
  revert s; induction prefix as [|p prefix IH]; intros s; simpl.
  - split; [intros _; now exists s | now destruct s].
  - destruct s as [|c s].
    + split; [discriminate | intros [rest H]; discriminate].
    + split.
      * intros H. apply andb_prop in H as [Hc Hs].
        apply N.eqb_eq in Hc. apply IH in Hs as [rest ->].
        exists rest. now subst.
      * intros [rest H]. injection H as Hc Hs.
        apply andb_true_intro. split; [now apply N.eqb_eq |].
        apply IH. now exists rest.
Qed.

Lemma contains_keys {V} (key : str) (d : dict V) :
  contains key d = true <-> In key (map fst d).
Proof.
  unfold contains. induction d as [|[k v] d IH]; simpl.
  - split; [discriminate | tauto].
  - destruct (str_eqb k key) eqn:E.
    + apply str_eqb_eq in E. split; [now left | reflexivity].
    + apply str_eqb_neq in E. rewrite IH. split; [now right | intros [H|H]]; tauto.
Qed.

(** ** Running the handler *)

Ltac run_request :=
  cbv beta iota;
  repeat (match goal with
          | |- context [headers (request ?hs ?body)] =>
              change (headers (request hs body)) with hs
          | |- context [rfile (request ?hs ?body)] =>
              change (rfile (request hs body)) with body
          | |- context [negb true] => change (negb true) with false
          end; cbv beta iota).

Lemma refused_readable (size : Z) :
  (-1 <= size <= PY_SSIZE_T_MAX)%Z <-> refused size = None.
Proof.
  unfold refused, PY_SSIZE_T_MAX.
  repeat match goal with
         | |- context [(?a <? ?b)%Z] => destruct (Z.ltb_spec a b)
         end; cbn [orb];
    split; intros H'; try discriminate; try reflexivity; lia.
Qed.

Lemma refused_cases (size : Z) (e : exn) :
  refused size = Some e ->
  (e = OverflowError /\
   (size < - PY_SSIZE_T_MAX - 1 \/ PY_SSIZE_T_MAX < size)%Z)
  \/ (e = ValueError /\ (- PY_SSIZE_T_MAX - 1 <= size < -1)%Z).
Proof.
  unfold refused, PY_SSIZE_T_MAX.
  repeat match goal with
         | |- context [(?a <? ?b)%Z] => destruct (Z.ltb_spec a b)
         end; cbn [orb];
    intros H'; try discriminate; injection H' as <-;
    ((left; split; [reflexivity | lia]) || (right; split; [reflexivity | lia])).
Qed.

Lemma do_POST_bad_content_type (hs : list (str * str)) (body : bytes) :
  valid_content_type (message_get (lit "content-type") hs) = false ->
  do_POST (request hs body)
  = (Ok tt, answered hs body [StatusLine BAD_REQUEST; EndOfHeaders] []).
Proof.
  intros H. unfold do_POST, bind, get_header. cbv beta.
  change (headers (request hs body)) with hs. rewrite H. reflexivity.
Qed.

Lemma do_POST_length (hs : list (str * str)) (body : bytes) :
  valid_content_type (message_get (lit "content-type") hs) = true ->
  forall e, int (message_get (lit "content-length") hs) = Raise e ->
  do_POST (request hs body) = (Raise e, request hs body).
Proof.
  intros H e He. unfold do_POST, bind, get_header, lift. run_request.
  rewrite H. run_request. rewrite He. reflexivity.
Qed.


Lemma handle_form_missing (vars : dict (list str)) (hs : list (str * str))
      (rest : bytes) :
  contains USERID_FIELD vars && contains PASSWORD_FIELD vars = false ->
  handle_form vars (form_read hs rest)
  = (Ok tt, answered hs rest [StatusLine BAD_REQUEST; EndOfHeaders] []).
Proof.
  intros H. unfold handle_form. rewrite H. reflexivity.
Qed.

Lemma handle_form_first (vars : dict (list str)) (u p : str) (h : handler) :
  first_value USERID_FIELD vars = Ok u ->
  first_value PASSWORD_FIELD vars = Ok p ->
  handle_form vars h = authenticate u p h.
Proof.
  intros Hu Hp. unfold handle_form.
  assert (Cu : contains USERID_FIELD vars = true).
  { unfold first_value, item, contains in *.
    destruct (get USERID_FIELD vars); [reflexivity | discriminate]. }
  assert (Cp : contains PASSWORD_FIELD vars = true).
  { unfold first_value, item, contains in *.
    destruct (get PASSWORD_FIELD vars); [reflexivity | discriminate]. }
  rewrite Cu, Cp. simpl. unfold bind, lift. rewrite Hu, Hp. reflexivity.
Qed.

(** ** The credential check *)

Lemma check_login_table (u : str) :
  In u (map fst DUMMY_USERS) <->
  u = lit "admin" \/ u = lit "sabine" \/ u = lit "augustus".
Proof.
  simpl. split.
  - intros [H|[H|[H|[]]]]; subst; auto.
  - intros [H|[H|H]]; subst; auto.
Qed.

Lemma check_login_accepts (u p : str) :
  p = lit "tobira" -> In u (map fst DUMMY_USERS) ->
  exists d r, get u DUMMY_USERS = Some (d, r) /\
              check_login u p = Ok (Some (u, d, r)).
Proof.
  intros -> Hu. apply check_login_table in Hu.
  destruct Hu as [->|[->| ->]]; eexists; eexists; split; reflexivity.
Qed.

Lemma check_login_rejects (u p : str) :
  ~ (p = lit "tobira" /\ In u (map fst DUMMY_USERS)) ->
  check_login u p = Ok None.
Proof.
  intros H. unfold check_login.
  destruct (str_eqb p (lit "tobira")) eqn:Ep; [|reflexivity].
  destruct (contains u DUMMY_USERS) eqn:Eu; [|reflexivity].
  exfalso. apply H. split.
  - now apply str_eqb_eq.
  - now apply contains_keys.
Qed.


Lemma authenticate_rejected (u p : str) (hs : list (str * str)) (rest : bytes) :
  check_login u p = Ok None ->
  authenticate u p (form_read hs rest)
  = (Ok tt, answered hs rest [StatusLine FORBIDDEN; EndOfHeaders]
                     [incorrect_login u p]).
Proof.
  intros H. unfold authenticate, bind, lift. rewrite H. reflexivity.
Qed.

Lemma authenticate_accepted (u p d r : str) (hs : list (str * str))
      (rest : bytes) :
  get u DUMMY_USERS = Some (d, r) ->
  check_login u p = Ok (Some (u, d, r)) ->
  exists vu vd vr,
    b64 u = Ok vu /\ b64 d = Ok vd /\ b64 r = Ok vr /\
    authenticate u p (form_read hs rest)
    = (Ok tt, answered hs rest (success_response vu vd vr)
                       [successful_login u d r]).
Proof.
  intros Hg Hc.
  assert (Hu : In u (map fst DUMMY_USERS)).
  { apply contains_keys. unfold contains. now rewrite Hg. }
  unfold authenticate, bind, lift. rewrite Hc. clear Hc.
  apply check_login_table in Hu.
  destruct Hu as [->|[->| ->]]; vm_compute in Hg; injection Hg as <- <-;
    eexists; eexists; eexists; repeat split; vm_compute; reflexivity.
Qed.

(** ** The parsed form *)

Lemma get_set_same {V} (key : str) (v : V) (d : dict V) :
  get key (set key v d) = Some v.
Proof.
  induction d as [|[k v'] d IH]; simpl.
  - now rewrite str_eqb_refl.
  - destruct (str_eqb k key) eqn:E; simpl; rewrite E; [reflexivity | exact IH].
Qed.

Lemma get_set_other {V} (key key' : str) (v : V) (d : dict V) :
  key <> key' -> get key (set key' v d) = get key d.
Proof.
  intros Hne. induction d as [|[k v'] d IH]; simpl.
  - assert (E : str_eqb key' key = false) by (apply str_eqb_neq; congruence).
    now rewrite E.
  - destruct (str_eqb k key') eqn:E; simpl.
    + apply str_eqb_eq in E. subst k.
      assert (E : str_eqb key' key = false) by (apply str_eqb_neq; congruence).
      now rewrite E.
    + destruct (str_eqb k key); [reflexivity | exact IH].
Qed.

Lemma get_add_pair (key : str) (pairs : list (str * str)) :
  forall d : dict (list str),
    get key (fold_left Urllib.add_pair pairs d)
    = match get key d, values_of key pairs with
      | Some vs, l => Some (vs ++ l)
      | None, [] => None
      | None, l => Some l
      end.
Proof.
  induction pairs as [|[n v] pairs IH]; intros d; simpl.
  - destruct (get key d); [now rewrite app_nil_r | reflexivity].
  - rewrite IH. clear IH. unfold Urllib.add_pair.
    destruct (str_eqb n key) eqn:E.
    + apply str_eqb_eq in E. subst n.
      destruct (get key d) as [vs|]; rewrite get_set_same.
      * now rewrite <- app_assoc.
      * reflexivity.
    + apply str_eqb_neq in E.
      assert (G : forall vs, get key (set n vs d) = get key d)
        by (intros vs; apply get_set_other; congruence).
      destruct (get n d); rewrite G; reflexivity.
Qed.



(** No name of a parsed form has an empty list of values. *)
Lemma parse_qs_values (name : str) (text : str) :
  contains name (Urllib.parse_qs text) = true ->
  exists u, first_value name (Urllib.parse_qs text) = Ok u.
Proof.
  unfold contains, first_value, item, Urllib.parse_qs.
  rewrite get_add_pair. simpl.
  destruct (values_of name (Urllib.parse_qsl text)) as [|u l];
    [discriminate | intros _; now exists u].
Qed.









(** ** Octets *)

Lemma byte_of_to_N (b : byte) : byte_of (Byte.to_N b) = b.
Proof. unfold byte_of. now rewrite Byte.of_to_N. Qed.

Lemma to_N_lt_256 (b : byte) : Byte.to_N b < 256.
Proof. pose proof (Byte.to_N_bounded b). lia. Qed.

Lemma to_N_byte_of (n : N) : n < 256 -> Byte.to_N (byte_of n) = n.
Proof.
  intros H. unfold byte_of. destruct (Byte.of_N n) as [b|] eqn:E.
  - now apply Byte.to_of_N.
  - apply Byte.of_N_None_iff in E. lia.
Qed.

(** ** Base64 *)

Ltac euclid := zify; Z.to_euclidean_division_equations; lia.

Lemma below_64 (n : N) : n < 64 -> In n (map N.of_nat (seq 0 64)).
Proof.
  intros H. apply in_map_iff. exists (N.to_nat n). split.
  - apply N2Nat.id.
  - apply in_seq. lia.
Qed.

Lemma b64_index_char (n : N) :
  n < 64 -> Base64.b64_index (Base64.b64_char n) = Some n.
Proof.
  intros H. apply below_64 in H. revert n H. apply Forall_forall.
  repeat constructor.
Qed.

Lemma b64_char_not_pad (n : N) :
  n < 64 -> Byte.eqb (Base64.b64_char n) Base64.pad = false.
Proof.
  intros H. apply below_64 in H. revert n H. apply Forall_forall.
  repeat constructor.
Qed.

Lemma b64_char_ascii (n : N) : Byte.to_N (Base64.b64_char n) < 128.
Proof.
  unfold Base64.b64_char.
  destruct (nth_in_or_default (N.to_nat n) Base64.alphabet Base64.pad) as [H| ->].
  - revert H. generalize (nth (N.to_nat n) Base64.alphabet Base64.pad).
    apply Forall_forall. repeat constructor.
  - reflexivity.
Qed.

Lemma b64encode_ascii (bs : bytes) :
  Forall (fun c => Byte.to_N c < 128) (Base64.b64encode bs).
Proof.
  assert (P : Byte.to_N Base64.pad < 128) by reflexivity.
  assert (G : forall n bs, (List.length bs < n)%nat ->
                           Forall (fun c => Byte.to_N c < 128) (Base64.b64encode bs)).
  { induction n as [|n IH]; intros l Hl; [lia|].
    destruct l as [|a [|b [|c rest]]]; simpl;
      repeat (constructor; try apply b64_char_ascii; try exact P).
    apply IH. simpl in Hl. lia. }
  apply (G (S (List.length bs))). lia.
Qed.

Lemma b64decode_b64encode (bs : bytes) :
  Base64.b64decode (Base64.b64encode bs) = Some bs.
Proof.
  assert (G : forall n bs, (List.length bs < n)%nat ->
                           Base64.b64decode (Base64.b64encode bs) = Some bs).
  { induction n as [|n IH]; intros l Hl; [lia|].
    destruct l as [|a [|b [|c rest]]]; [reflexivity| | |].
    - pose proof (to_N_lt_256 a) as Ha.
      cbn [Base64.b64encode Base64.b64decode].
      rewrite !b64_index_char by euclid.
      change (Byte.eqb Base64.pad Base64.pad) with true. cbv iota.
      replace (Byte.to_N a / 4 * 4 + Byte.to_N a mod 4 * 16 / 16)
        with (Byte.to_N a) by euclid.
      now rewrite byte_of_to_N.
    - pose proof (to_N_lt_256 a) as Ha. pose proof (to_N_lt_256 b) as Hb.
      cbn [Base64.b64encode Base64.b64decode].
      rewrite !b64_index_char by euclid.
      change (Byte.eqb Base64.pad Base64.pad) with true. cbv iota.
      rewrite b64_char_not_pad by euclid.
      replace (Byte.to_N a / 4 * 4 + (Byte.to_N a mod 4 * 16 + Byte.to_N b / 16) / 16)
        with (Byte.to_N a) by euclid.
      replace ((Byte.to_N a mod 4 * 16 + Byte.to_N b / 16) mod 16 * 16
               + Byte.to_N b mod 16 * 4 / 4)
        with (Byte.to_N b) by euclid.
      now rewrite !byte_of_to_N.
    - pose proof (to_N_lt_256 a) as Ha. pose proof (to_N_lt_256 b) as Hb.
      pose proof (to_N_lt_256 c) as Hc.
      cbn [Base64.b64encode Base64.b64decode].
      rewrite !b64_index_char by euclid.
      rewrite b64_char_not_pad by euclid.
      rewrite IH by (simpl in Hl; lia).
      replace (Byte.to_N a / 4 * 4 + (Byte.to_N a mod 4 * 16 + Byte.to_N b / 16) / 16)
        with (Byte.to_N a) by euclid.
      replace ((Byte.to_N a mod 4 * 16 + Byte.to_N b / 16) mod 16 * 16
               + (Byte.to_N b mod 16 * 4 + Byte.to_N c / 64) / 4)
        with (Byte.to_N b) by euclid.
      replace ((Byte.to_N b mod 16 * 4 + Byte.to_N c / 64) mod 4 * 64
               + Byte.to_N c mod 64)
        with (Byte.to_N c) by euclid.
      now rewrite !byte_of_to_N. }
  apply (G (S (List.length bs))). lia.
Qed.

(** ** UTF-8 *)

Lemma utf8_items_ascii (bs : bytes) :
  Forall (fun c => Byte.to_N c < 128) bs ->
  utf8_items None bs = map (fun c => Some (Byte.to_N c)) bs.
Proof.
  induction 1 as [|b bs Hb _ IH]; [reflexivity|].
  cbn [utf8_items map]. unfold utf8_start.
  assert (E : (Byte.to_N b <? 128) = true) by now apply N.ltb_lt.
  rewrite E, IH. reflexivity.
Qed.

Lemma all_decoded_some (s : str) : all_decoded (map Some s) = Some s.
Proof. induction s as [|c s IH]; simpl; [|rewrite IH]; reflexivity. Qed.

Lemma bytes_decode_ascii (bs : bytes) :
  Forall (fun c => Byte.to_N c < 128) bs ->
  bytes_decode Strict bs = Ok (map Byte.to_N bs).
Proof.
  intros H. unfold bytes_decode. rewrite utf8_items_ascii by exact H.
  rewrite <- (map_map Byte.to_N Some), all_decoded_some. reflexivity.
Qed.

Lemma ascii_bytes_to_N (bs : bytes) :
  Forall (fun c => Byte.to_N c < 128) bs ->
  Base64.ascii_bytes (map Byte.to_N bs) = Some bs.
Proof.
  induction 1 as [|b bs Hb _ IH]; [reflexivity|].
  simpl. apply N.ltb_lt in Hb. rewrite Hb, IH, byte_of_to_N. reflexivity.
Qed.

Lemma encode_codepoint_scalar (c : N) :
  scalar_value c <-> exists bs, encode_codepoint c = Some bs.
Proof.
  unfold scalar_value, encode_codepoint.
  destruct (c <? 128) eqn:E1; [apply N.ltb_lt in E1; split; [eauto | lia]|].
  destruct (c <? 2048) eqn:E2; [apply N.ltb_lt in E2; split; [eauto | lia]|].
  apply N.ltb_ge in E1, E2.
  destruct (c <? 65536) eqn:E3.
  - apply N.ltb_lt in E3.
    destruct ((55296 <=? c) && (c <=? 57343)) eqn:E4.
    + apply andb_prop in E4 as [Ea Eb]. apply N.leb_le in Ea, Eb.
      split; [lia | intros [bs H]; discriminate].
    + split; [eauto | intros _].
      apply andb_false_iff in E4 as [E4|E4]; apply N.leb_gt in E4; lia.
  - apply N.ltb_ge in E3.
    destruct (c <? 1114112) eqn:E5.
    + apply N.ltb_lt in E5. split; [eauto | lia].
    + apply N.ltb_ge in E5. split; [lia | intros [bs H]; discriminate].
Qed.

(** [encode] succeeds on every text without lone surrogates. *)
Lemma str_encode_scalar (s : str) :
  Forall scalar_value s -> exists bs, str_encode s = Ok bs.
Proof.
  induction 1 as [|c s Hc _ [rest IH]]; [now exists []|].
  apply encode_codepoint_scalar in Hc as [bs Hc].
  exists (bs ++ rest). simpl. now rewrite Hc, IH.
Qed.

Lemma b64_encoded (s : str) (bs : bytes) :
  str_encode s = Ok bs ->
  b64 s = Ok (map Byte.to_N (Base64.b64encode bs)).
Proof.
  intros H. unfold b64. rewrite H.
  apply bytes_decode_ascii, b64encode_ascii.
Qed.

Lemma b64decode_str_b64 (s : str) (bs : bytes) (h : str) :
  str_encode s = Ok bs -> b64 s = Ok h -> Base64.b64decode_str h = Some bs.
Proof.
  intros Hs Hh. rewrite (b64_encoded s bs Hs) in Hh. injection Hh as <-.
  unfold Base64.b64decode_str.
  rewrite ascii_bytes_to_N by apply b64encode_ascii.
  apply b64decode_b64encode.
Qed.

Ltac decide_tests :=
  repeat (match goal with
          | |- context [?a <? ?b] => destruct (N.ltb_spec a b); try lia
          | |- context [?a =? ?b] => destruct (N.eqb_spec a b); try lia
          | |- context [?a <=? ?b] => destruct (N.leb_spec a b); try lia
          end; cbn [needed acc lo hi andb]).

Lemma utf8_one (n : N) (rest : bytes) :
  n < 128 ->
  utf8_items None (byte_of n :: rest) = Some n :: utf8_items None rest.
Proof.
  intros H. cbn [utf8_items]. rewrite to_N_byte_of by lia.
  unfold utf8_start. decide_tests; reflexivity.
Qed.

Lemma utf8_two (n1 n2 : N) (rest : bytes) :
  194 <= n1 <= 223 -> 128 <= n2 <= 191 ->
  utf8_items None (byte_of n1 :: byte_of n2 :: rest)
  = Some (n1 mod 32 * 64 + n2 mod 64) :: utf8_items None rest.
Proof.
  intros H1 H2. cbn [utf8_items]. rewrite !to_N_byte_of by lia.
  unfold utf8_start. decide_tests; reflexivity.
Qed.

Lemma utf8_three (n1 n2 n3 : N) (rest : bytes) :
  224 <= n1 <= 239 -> 128 <= n2 <= 191 -> 128 <= n3 <= 191 ->
  (n1 = 224 -> 160 <= n2) -> (n1 = 237 -> n2 <= 159) ->
  utf8_items None (byte_of n1 :: byte_of n2 :: byte_of n3 :: rest)
  = Some ((n1 mod 16 * 64 + n2 mod 64) * 64 + n3 mod 64)
      :: utf8_items None rest.
Proof.
  intros H1 H2 H3 Hlo Hhi. cbn [utf8_items]. rewrite !to_N_byte_of by lia.
  unfold utf8_start. decide_tests; reflexivity.
Qed.

Lemma utf8_four (n1 n2 n3 n4 : N) (rest : bytes) :
  240 <= n1 <= 244 -> 128 <= n2 <= 191 -> 128 <= n3 <= 191 ->
  128 <= n4 <= 191 ->
  (n1 = 240 -> 144 <= n2) -> (n1 = 244 -> n2 <= 143) ->
  utf8_items None
    (byte_of n1 :: byte_of n2 :: byte_of n3 :: byte_of n4 :: rest)
  = Some (((n1 mod 8 * 64 + n2 mod 64) * 64 + n3 mod 64) * 64 + n4 mod 64)
      :: utf8_items None rest.
Proof.
  intros H1 H2 H3 H4 Hlo Hhi. cbn [utf8_items]. rewrite !to_N_byte_of by lia.
  unfold utf8_start. decide_tests; reflexivity.
Qed.

Lemma some_eq {A} (x y : A) : Some x = Some y -> x = y.
Proof. congruence. Qed.

(** Decoding undoes encoding, one code point at a time. *)
Lemma utf8_items_encoded (c : N) (bs rest : bytes) :
  encode_codepoint c = Some bs ->
  utf8_items None (bs ++ rest) = Some c :: utf8_items None rest.
Proof.
  unfold encode_codepoint.
  destruct (N.ltb_spec c 128); [intros E; apply some_eq in E; subst bs|].
  { cbn [app]. now apply utf8_one. }
  destruct (N.ltb_spec c 2048); [intros E; apply some_eq in E; subst bs|].
  { cbn [app]. rewrite utf8_two by euclid. f_equal. f_equal. euclid. }
  destruct (N.ltb_spec c 65536).
  { destruct (N.leb_spec 55296 c); destruct (N.leb_spec c 57343);
      cbn [andb]; try discriminate; intros E; apply some_eq in E; subst bs;
      cbn [app]; rewrite utf8_three by euclid; f_equal; f_equal; euclid. }
  destruct (N.ltb_spec c 1114112);
    [intros E; apply some_eq in E; subst bs|discriminate].
  cbn [app]. rewrite utf8_four by euclid. f_equal. f_equal. euclid.
Qed.

(** [decode] inverts [encode]: the octets are a UTF-8 form of the text. *)
Lemma bytes_decode_str_encode (s : str) (bs : bytes) :
  str_encode s = Ok bs -> bytes_decode Strict bs = Ok s.
Proof.
  revert bs. induction s as [|c s IH]; intros bs; simpl.
  - intros E. injection E as <-. reflexivity.
  - destruct (encode_codepoint c) as [cs|] eqn:Ec; [|discriminate].
    destruct (str_encode s) as [rest|] eqn:Es; [|discriminate].
    intros E. injection E as <-.
    specialize (IH rest eq_refl). unfold bytes_decode in *.
    rewrite (utf8_items_encoded c cs rest Ec). simpl.
    destruct (all_decoded (utf8_items None rest)); [|discriminate].
    injection IH as ->. reflexivity.
Qed.

(** ** [int] *)

Lemma digit_range (c d : N) : digit c = Some d -> 48 <= c <= 57.
Proof.
  unfold digit. destruct (N.leb_spec 48 c); destruct (N.leb_spec c 57);
    simpl; intros E; try discriminate; lia.
Qed.

(** *** [int] accepts the decimal integers and nothing else *)

Lemma lstrip_split (s : str) :
  exists lead, s = lead ++ lstrip s /\ Forall (fun c => int_space c = true) lead.
Proof.
  induction s as [|c s [lead [E F]]]; simpl.
  - exists []. split; [reflexivity | constructor].
  - destruct (int_space c) eqn:Ec.
    + exists (c :: lead). split; [simpl; congruence | now constructor].
    + exists []. split; [reflexivity | constructor].
Qed.

Lemma strip_split (s : str) :
  exists lead trail,
    s = lead ++ strip s ++ trail /\
    Forall (fun c => int_space c = true) lead /\
    Forall (fun c => int_space c = true) trail.
Proof.
  destruct (lstrip_split s) as [lead [E F]].
  destruct (lstrip_split (rev (lstrip s))) as [t [Et Ft]].
  exists lead, (rev t). split; [|split; [exact F | now apply Forall_rev]].
  unfold strip. rewrite <- rev_app_distr, <- Et, rev_involutive. exact E.
Qed.

Lemma digits_groups (s : str) :
  forall value after n,
    digits value after s = Some n ->
    if after
    then s = [] \/ digit_groups s \/ exists rest, s = 95 :: rest /\ digit_groups rest
    else digit_groups s.
Proof.
  induction s as [|c s IH]; simpl; intros value after n H.
  - destruct after; [now left | discriminate].
  - destruct (N.eqb_spec c 95) as [->|Hc].
    + destruct after; [|discriminate].
      right. right. exists s. split; [reflexivity|].
      exact (IH value false n H).
    + destruct (digit c) as [d|] eqn:Ed; [|discriminate].
      assert (Dc : is_digit c) by exact (digit_range c d Ed).
      assert (G : digit_groups (c :: s)).
      { pose proof (IH _ true n H) as [->|[G|[rest [-> G]]]].
        - now constructor.
        - now apply next_digit.
        - now apply next_group. }
      destruct after; [right; now left | exact G].
Qed.

Lemma int_of_str_decimal (v : str) (z : Z) :
  int_of_str v = Ok z -> decimal_integer v.
Proof.
  intros H. destruct (strip_split v) as [lead [trail [E [Fl Ft]]]].
  unfold int_of_str in H.
  assert (D : forall (f : N -> Z) tl,
             match option_map f (unsigned tl) with
             | Some z => Ok z | None => Raise ValueError end = Ok z ->
             digit_groups tl).
  { intros f tl. unfold unsigned.
    destruct (MAX_STR_DIGITS <? count_digits tl)%nat; [discriminate|].
    destruct (digits 0 false tl) as [n|] eqn:En; simpl; [|discriminate].
    intros _. exact (digits_groups tl 0 false n En). }
  destruct (strip v) as [|x tl] eqn:Es.
  { apply D in H. inversion H. }
  destruct (N.eqb_spec x 43) as [->|N43].
  { apply D in H. exists lead, [43], tl, trail.
    repeat split; try assumption; tauto. }
  destruct (N.eqb_spec x 45) as [->|N45].
  { apply D in H. exists lead, [45], tl, trail.
    repeat split; try assumption; tauto. }
  assert (H' : match option_map Z.of_N (unsigned (x :: tl)) with
               | Some z => Ok z | None => Raise ValueError end = Ok z).
  { revert H. clear -N43 N45.
    destruct x as [|p]; [exact (fun H => H)|].
    do 6 (destruct p as [p|p|]; try exact (fun H => H)); lia. }
  apply D in H'. exists lead, [], (x :: tl), trail.
  repeat split; try assumption; tauto.
Qed.

(** What is not written as a decimal integer makes [int] raise. *)
Lemma int_of_str_not_decimal (v : str) :
  ~ decimal_integer v -> int_of_str v = Raise ValueError.
Proof.
  intros H. destruct (int_of_str v) as [z|e] eqn:E.
  - apply int_of_str_decimal in E. contradiction.
  - unfold int_of_str in E. revert E.
    match goal with |- match ?o with _ => _ end = _ -> _ => destruct o end;
      congruence.
Qed.

Lemma is_digit_digit (d : N) : is_digit d -> exists n, digit d = Some n.
Proof.
  unfold is_digit, digit. intros [H1 H2].
  apply N.leb_le in H1, H2. rewrite H1, H2. simpl. eauto.
Qed.

Lemma is_digit_plain (d : N) :
  is_digit d -> int_space d = false /\ d <> 95 /\ d <> 43 /\ d <> 45.
Proof.
  unfold is_digit, int_space. intros [H1 H2]. split; [|lia].
  repeat match goal with
         | |- context [?a <=? ?b] => destruct (N.leb_spec a b); try lia
         | |- context [?a =? ?b] => destruct (N.eqb_spec a b); try lia
         end; reflexivity.
Qed.

Lemma groups_digits (s : str) :
  digit_groups s ->
  forall value after, exists n, digits value after s = Some n.
Proof.
  induction 1 as [d Hd|d rest Hd _ IH|d rest Hd _ IH]; intros value after;
    destruct (is_digit_digit d Hd) as [k Ek];
    destruct (is_digit_plain d Hd) as [_ [N95 _]];
    apply N.eqb_neq in N95; cbn [digits]; rewrite N95, Ek.
  - eauto.
  - apply IH.
  - cbn [digits]. rewrite N.eqb_refl. apply IH.
Qed.

Lemma groups_ends (s : str) :
  digit_groups s ->
  (exists d tl, s = d :: tl /\ is_digit d) /\
  (exists d front, s = front ++ [d] /\ is_digit d).
Proof.
  induction 1 as [d Hd|d rest Hd _ [_ [l [f [-> Hl]]]]
                 |d rest Hd _ [_ [l [f [-> Hl]]]]].
  - split; [now exists d, [] | now exists d, []].
  - split; [now exists d, (f ++ [l]) | now exists l, (d :: f)].
  - split; [now exists d, (95 :: f ++ [l]) | now exists l, (d :: 95 :: f)].
Qed.

Lemma lstrip_spaces (lead s : str) :
  Forall (fun c => int_space c = true) lead -> lstrip (lead ++ s) = lstrip s.
Proof.
  induction 1 as [|c lead Hc _ IH]; simpl; [reflexivity|]. now rewrite Hc.
Qed.

Lemma strip_core (lead core trail : str) (first last : N) (middle front : str) :
  Forall (fun c => int_space c = true) lead ->
  Forall (fun c => int_space c = true) trail ->
  core = first :: middle -> int_space first = false ->
  core = front ++ [last] -> int_space last = false ->
  strip (lead ++ core ++ trail) = core.
Proof.
  intros Fl Ft E1 S1 E2 S2. unfold strip.
  rewrite lstrip_spaces by exact Fl.
  assert (L1 : lstrip (core ++ trail) = core ++ trail).
  { rewrite E1. simpl. now rewrite S1. }
  rewrite L1, rev_app_distr, lstrip_spaces by now apply Forall_rev.
  assert (L2 : lstrip (rev core) = rev core).
  { rewrite E2, rev_app_distr. simpl. now rewrite S2. }
  rewrite L2. apply rev_involutive.
Qed.

Lemma count_digits_app (a b : str) :
  count_digits (a ++ b) = (count_digits a + count_digits b)%nat.
Proof. unfold count_digits. now rewrite filter_app, length_app. Qed.

(** A decimal integer of no more than 4300 digits is converted. *)
Lemma decimal_int_of_str (v : str) :
  decimal_integer v -> (count_digits v <= MAX_STR_DIGITS)%nat ->
  exists z, int_of_str v = Ok z.
Proof.
  intros (lead & sign & ds & trail & -> & Fl & Ft & Hs & G) Hc.
  destruct (groups_ends ds G) as [[d [tl [Ed Hd]]] [l [front [El Hl]]]].
  destruct (is_digit_plain d Hd) as [Sd [_ [D43 D45]]].
  destruct (is_digit_plain l Hl) as [Sl _].
  assert (Cd : (MAX_STR_DIGITS <? count_digits ds)%nat = false).
  { apply Nat.ltb_ge. rewrite !count_digits_app in Hc. lia. }
  destruct (groups_digits ds G 0 false) as [n En].
  assert (U : unsigned ds = Some n) by (unfold unsigned; now rewrite Cd).
  unfold int_of_str.
  destruct Hs as [->|[->| ->]].
  - change (lead ++ [] ++ ds ++ trail) with (lead ++ ds ++ trail).
    rewrite (strip_core lead ds trail d l tl front); try assumption.
    rewrite Ed in *. clear -U D43 D45.
      assert (K : match d :: tl with
                  | 43 :: t => option_map Z.of_N (unsigned t)
                  | 45 :: t => option_map (fun n => (- Z.of_N n)%Z) (unsigned t)
                  | t => option_map Z.of_N (unsigned t)
                  end = option_map Z.of_N (unsigned (d :: tl))).
      { destruct d as [|p]; [reflexivity|].
        do 6 (destruct p as [p|p|]; try reflexivity); congruence. }
    rewrite K, U. simpl. eauto.
  - change (lead ++ [43] ++ ds ++ trail) with (lead ++ (43 :: ds) ++ trail).
    rewrite (strip_core lead (43 :: ds) trail 43 l ds (43 :: front));
      try assumption; try reflexivity.
    + rewrite U. simpl. eauto.
    + simpl. now rewrite El.
  - change (lead ++ [45] ++ ds ++ trail) with (lead ++ (45 :: ds) ++ trail).
    rewrite (strip_core lead (45 :: ds) trail 45 l ds (45 :: front));
      try assumption; try reflexivity.
    + rewrite U. simpl. eauto.
    + simpl. now rewrite El.
Qed.

(** ** The remaining ways through [do_POST] *)

Lemma do_POST_read_refused (hs : list (str * str)) (body : bytes) (length : Z)
      (e : exn) :
  valid_content_type (message_get (lit "content-type") hs) = true ->
  int (message_get (lit "content-length") hs) = Ok length ->
  refused length = Some e ->
  do_POST (request hs body) = (Raise e, request hs body).
Proof.
  intros Hct Hlen Hr.
  unfold do_POST, bind, get_header, lift. run_request.
  rewrite Hct. run_request. rewrite Hlen. unfold rfile_read. run_request.
  rewrite Hr. reflexivity.
Qed.

Lemma do_POST_undecodable (hs : list (str * str)) (body : bytes) (length : Z)
      (e : exn) :
  valid_content_type (message_get (lit "content-type") hs) = true ->
  int (message_get (lit "content-length") hs) = Ok length ->
  refused length = None ->
  bytes_decode Strict (taken length body) = Raise e ->
  do_POST (request hs body) = (Raise e, form_read hs (left_over length body)).
Proof.
  intros Hct Hlen Hge Hd.
  unfold do_POST, bind, get_header, lift. run_request.
  rewrite Hct. run_request. rewrite Hlen.
  unfold rfile_read, taken, left_over in *. rewrite Hge. run_request.
  destruct (length =? -1)%Z eqn:E2; run_request; rewrite Hd; reflexivity.
Qed.


Lemma credentials_dec (u p : str) :
  {p = lit "tobira" /\ In u (map fst DUMMY_USERS)}
  + {~ (p = lit "tobira" /\ In u (map fst DUMMY_USERS))}.
Proof.
  destruct (str_eqb p (lit "tobira")) eqn:Ep.
  - destruct (contains u DUMMY_USERS) eqn:Eu.
    + left. split; [now apply str_eqb_eq | now apply contains_keys].
    + right. intros [_ H]. apply contains_keys in H. congruence.
  - right. intros [H _]. apply str_eqb_eq in H. congruence.
Qed.

(** ** Every way through [do_POST], with the handler it leaves *)

Lemma int_raises (x : option str) (e : exn) :
  int x = Raise e -> e = TypeError \/ e = ValueError.
Proof.
  destruct x as [v|]; simpl; [|intros H; left; congruence].
  unfold int_of_str.
  match goal with |- match ?o with _ => _ end = _ -> _ => destruct o end;
    intros H; [discriminate | right; congruence].
Qed.

Lemma bytes_decode_raises (mode : errors) (bs : bytes) (e : exn) :
  bytes_decode mode bs = Raise e -> e = UnicodeDecodeError.
Proof.
  unfold bytes_decode. destruct mode; [|discriminate].
  destruct (all_decoded _); [discriminate | congruence].
Qed.

Lemma do_POST_form_rest (hs : list (str * str)) (body : bytes) (length : Z)
      (text : str) :
  valid_content_type (message_get (lit "content-type") hs) = true ->
  int (message_get (lit "content-length") hs) = Ok length ->
  refused length = None ->
  bytes_decode Strict (taken length body) = Ok text ->
  do_POST (request hs body)
  = handle_form (Urllib.parse_qs text) (form_read hs (left_over length body)).
Proof.
  intros Hct Hlen Hge Htext.
  unfold do_POST, bind, get_header, lift. run_request.
  rewrite Hct. run_request. rewrite Hlen.
  unfold rfile_read, taken, left_over in *. rewrite Hge. run_request.
  destruct (length =? -1)%Z eqn:E2; run_request; rewrite Htext; reflexivity.
Qed.


Lemma authenticate_cases (u p : str) :
  (~ (p = lit "tobira" /\ In u (map fst DUMMY_USERS)) /\
   forall hs rest,
     authenticate u p (form_read hs rest)
     = (Ok tt, answered hs rest [StatusLine FORBIDDEN; EndOfHeaders]
                        [incorrect_login u p]))
  \/
  (exists d r vu vd vr,
      p = lit "tobira" /\ get u DUMMY_USERS = Some (d, r) /\
      b64 u = Ok vu /\ b64 d = Ok vd /\ b64 r = Ok vr /\
      forall hs rest,
        authenticate u p (form_read hs rest)
        = (Ok tt, answered hs rest (success_response vu vd vr)
                           [successful_login u d r])).
Proof.
  destruct (credentials_dec u p) as [[Hp Hu]|Hno].
  - right. destruct (check_login_accepts u p Hp Hu) as [d [r [Hg Hc]]].
    destruct (authenticate_accepted u p d r [] [] Hg Hc)
      as [vu [vd [vr [Bu [Bd [Br _]]]]]].
    exists d, r, vu, vd, vr. repeat (split; [assumption|]).
    intros hs rest.
    destruct (authenticate_accepted u p d r hs rest Hg Hc)
      as [vu' [vd' [vr' [Bu' [Bd' [Br' ->]]]]]].
    congruence.
  - left. split; [exact Hno|]. intros hs rest.
    apply authenticate_rejected, check_login_rejects, Hno.
Qed.

Lemma handle_form_cases (text : str) :
  (contains USERID_FIELD (Urllib.parse_qs text)
   && contains PASSWORD_FIELD (Urllib.parse_qs text) = false /\
   forall hs rest,
     handle_form (Urllib.parse_qs text) (form_read hs rest)
     = (Ok tt, answered hs rest [StatusLine BAD_REQUEST; EndOfHeaders] []))
  \/
  (exists u p,
      first_value USERID_FIELD (Urllib.parse_qs text) = Ok u /\
      first_value PASSWORD_FIELD (Urllib.parse_qs text) = Ok p /\
      forall h, handle_form (Urllib.parse_qs text) h = authenticate u p h).
Proof.
  destruct (contains USERID_FIELD (Urllib.parse_qs text)
            && contains PASSWORD_FIELD (Urllib.parse_qs text)) eqn:Hc.
  - right. apply andb_prop in Hc as [Cu Cp].
    destruct (parse_qs_values _ _ Cu) as [u Hu].
    destruct (parse_qs_values _ _ Cp) as [p Hp].
    exists u, p. split; [exact Hu|]. split; [exact Hp|].
    intros h. now apply handle_form_first.
  - left. split; [reflexivity|]. intros hs rest.
    now apply handle_form_missing.
Qed.

(** The handler a run of [do_POST] leaves behind is one of these. *)
Lemma do_POST_outcomes (hs : list (str * str)) (body : bytes) :
  (exists rest,
      do_POST (request hs body)
      = (Ok tt, answered hs rest [StatusLine BAD_REQUEST; EndOfHeaders] []))
  \/
  (exists text u p rest,
      carries_form hs body text /\
      first_value USERID_FIELD (Urllib.parse_qs text) = Ok u /\
      first_value PASSWORD_FIELD (Urllib.parse_qs text) = Ok p /\
      ~ (p = lit "tobira" /\ In u (map fst DUMMY_USERS)) /\
      do_POST (request hs body)
      = (Ok tt, answered hs rest [StatusLine FORBIDDEN; EndOfHeaders]
                         [incorrect_login u p]))
  \/
  (exists text u p d r vu vd vr rest,
      carries_form hs body text /\
      first_value USERID_FIELD (Urllib.parse_qs text) = Ok u /\
      first_value PASSWORD_FIELD (Urllib.parse_qs text) = Ok p /\
      p = lit "tobira" /\ get u DUMMY_USERS = Some (d, r) /\
      do_POST (request hs body)
      = (Ok tt, answered hs rest (success_response vu vd vr)
                         [successful_login u d r]))
  \/
  (exists e rest,
      (e = TypeError \/ e = ValueError \/ e = OverflowError
       \/ e = UnicodeDecodeError) /\
      do_POST (request hs body) = (Raise e, form_read hs rest)).
Proof.
  destruct (valid_content_type (message_get (lit "content-type") hs)) eqn:Hct.
  2: { left. exists body. now apply do_POST_bad_content_type. }
  destruct (int (message_get (lit "content-length") hs)) as [length|e] eqn:Hlen.
  2: { right. right. right. exists e, body. split.
       - destruct (int_raises _ _ Hlen); tauto.
       - now apply do_POST_length. }
  destruct (refused length) as [e|] eqn:Hr.
  { right. right. right. exists e, body. split.
    - destruct (refused_cases length e Hr) as [[-> _]|[-> _]]; tauto.
    - now apply (do_POST_read_refused hs body length). }
  destruct (bytes_decode Strict (taken length body)) as [text|e] eqn:Hd.
  2: { right. right. right. exists e, (left_over length body). split.
       - apply bytes_decode_raises in Hd. tauto.
       - now apply do_POST_undecodable. }
  assert (Hf : carries_form hs body text).
  { split; [exact Hct|]. exists length.
    split; [exact Hlen|]. split; [now apply refused_readable | exact Hd]. }
  rewrite (do_POST_form_rest hs body length text Hct Hlen Hr Hd).
  destruct (handle_form_cases text) as [[_ E]|[u [p [Hu [Hp E]]]]].
  { left. exists (left_over length body). apply E. }
  rewrite E. clear E.
  destruct (authenticate_cases u p)
    as [[Hno E]|[d [r [vu [vd [vr [Hp' [Hg [_ [_ [_ E]]]]]]]]]]].
  - right. left. exists text, u, p, (left_over length body).
    repeat (split; [assumption|]). apply E.
  - right. right. left.
    exists text, u, p, d, r, vu, vd, vr, (left_over length body).
    repeat (split; [assumption|]). apply E.
Qed.

(** ** The model on known values *)

Example b64encode_rfc4648 :
  Base64.b64encode (Samples.octets "") = Samples.octets "" /\
  Base64.b64encode (Samples.octets "f") = Samples.octets "Zg==" /\
  Base64.b64encode (Samples.octets "fo") = Samples.octets "Zm8=" /\
  Base64.b64encode (Samples.octets "foo") = Samples.octets "Zm9v" /\
  Base64.b64encode (Samples.octets "foobar") = Samples.octets "Zm9vYmFy".
Proof. repeat split. Qed.

Example b64decode_rejects :
  Base64.b64decode (Samples.octets "Zg=") = None /\
  Base64.b64decode (Samples.octets "Zg==Zg==") = None /\
  Base64.b64decode (Samples.octets "Z-==") = None.
Proof. repeat split. Qed.

Example str_encode_umlaut :
  str_encode Samples.augustus_name
  = Ok (Samples.octets "Augustus Pagenk" ++ [xc3; xa4] ++ Samples.octets "mper").
Proof. reflexivity. Qed.

Example str_encode_surrogate : str_encode [0xD800] = Raise UnicodeEncodeError.
Proof. reflexivity. Qed.

Example bytes_decode_malformed :
  bytes_decode Strict [xe0; x80] = Raise UnicodeDecodeError /\
  bytes_decode Replace [xe0; x80] = Ok [0xFFFD; 0xFFFD] /\
  bytes_decode Replace [xe2; x82; x41] = Ok [0xFFFD; 0x41] /\
  bytes_decode Replace [xe2; x82; xac] = Ok [0x20AC] /\
  bytes_decode Replace [xf0; x9f; x98] = Ok [0xFFFD].
Proof. repeat split. Qed.

Example int_accepts :
  int (Some (lit "28")) = Ok 28%Z /\
  int (Some (lit " +1_000 ")) = Ok 1000%Z /\
  int (Some (lit "-1")) = Ok (-1)%Z /\
  int (Some (lit "007")) = Ok 7%Z.
Proof. repeat split. Qed.

Example int_refuses :
  int None = Raise TypeError /\
  int (Some (lit "")) = Raise ValueError /\
  int (Some (lit "abc")) = Raise ValueError /\
  int (Some (lit "1__0")) = Raise ValueError /\
  int (Some (lit "12 3")) = Raise ValueError /\
  int (Some (lit "- 1")) = Raise ValueError /\
  int (Some (lit "28" ++ [0x1C])) = Raise ValueError /\
  int (Some (lit "28" ++ [0x1F])) = Raise ValueError.
Proof. repeat split. Qed.

Example int_white_space :
  int (Some ([9; 10; 11; 12; 13; 32] ++ lit "28" ++ [0xA0; 0x85]))
  = Ok 28%Z.
Proof. reflexivity. Qed.

Example int_digit_limit :
  int (Some (repeat 48 4300)) = Ok 0%Z /\
  int (Some (repeat 48 4301)) = Raise ValueError.
Proof. split; vm_compute; reflexivity. Qed.

Example read_sizes :
  refused 9223372036854775807 = None /\
  refused 9223372036854775808 = Some OverflowError /\
  refused (-1) = None /\
  refused (-2) = Some ValueError /\
  refused (-9223372036854775808) = Some ValueError /\
  refused (-9223372036854775809) = Some OverflowError.
Proof. repeat split. Qed.

Example parse_qs_decodes :
  Urllib.parse_qs (lit "a=%C3%A4+b&a=%E0%80x&c&d==&=e&%zz=%4&&f=")
  = [ (lit "a", [[0xE4; 32; 98]; [0xFFFD; 0xFFFD; 120]]);
      (lit "d", [lit "="]);
      (lit "", [lit "e"]);
      (lit "%zz", [lit "%4"]) ].
Proof. reflexivity. Qed.

(** The two scenarios the specification spells out. *)
Example scenario_admin_tobira :
  do_POST (request (Samples.form_headers "28")
                   (Samples.octets "userid=admin&password=tobira"))
  = (Ok tt,
     answered (Samples.form_headers "28") []
       (success_response
          (lit "YWRtaW4=") (lit "QWRtaW5pc3RyYXRvcg==")
          (lit "Uk9MRV9BRE1JTiwgUk9MRV9VU0VSX0FETUlOLCBST0xFX0FOT05ZTU9VUywgUk9MRV9VU0VSLCBST0xFX1NVRE8="))
       [successful_login (lit "admin") (lit "Administrator") Samples.admin_roles])
  /\ Base64.b64decode_str (lit "YWRtaW4=") = Some (Samples.octets "admin")
  /\ Base64.b64decode_str (lit "QWRtaW5pc3RyYXRvcg==")
     = Some (Samples.octets "Administrator")
  /\ Base64.b64decode_str
       (lit "Uk9MRV9BRE1JTiwgUk9MRV9VU0VSX0FETUlOLCBST0xFX0FOT05ZTU9VUywgUk9MRV9VU0VSLCBST0xFX1NVRE8=")
     = Some (Samples.octets
               "ROLE_ADMIN, ROLE_USER_ADMIN, ROLE_ANONYMOUS, ROLE_USER, ROLE_SUDO").
Proof. repeat split. Qed.

Example scenario_admin_wrong :
  do_POST (request (Samples.form_headers "27")
                   (Samples.octets "userid=admin&password=wrong"))
  = (Ok tt,
     answered (Samples.form_headers "27") []
       [StatusLine FORBIDDEN; EndOfHeaders]
       [lit "Incorrect login admin:wrong"]).
Proof. reflexivity. Qed.

(** * The claims *)
















(** C7.  Round trip of the header encoder: for every text [s], ASCII or
    not, base64-decoding the header value that [b64] produces for [s]
    gives back exactly the UTF-8 octets of [s], the octets that decode to
    [s]; and [b64] does produce a value for every text that has a UTF-8
    form. *)
Theorem b64_round_trip (s : str) :
  (forall h, b64 s = Ok h ->
             exists bs,
               str_encode s = Ok bs /\
               Base64.b64decode_str h = Some bs /\
               bytes_decode Strict bs = Ok s) /\
  (Forall scalar_value s -> exists h, b64 s = Ok h).
Proof.
  split.
  - intros h Hh. destruct (str_encode s) as [bs|e] eqn:Hs.
    + exists bs. split; [reflexivity|]. split.
      * exact (b64decode_str_b64 s bs h Hs Hh).
      * exact (bytes_decode_str_encode s bs Hs).
    + unfold b64 in Hh. rewrite Hs in Hh. discriminate Hh.
  - intros H. destruct (str_encode_scalar s H) as [bs Hs].
    exists (map Byte.to_N (Base64.b64encode bs)). exact (b64_encoded s bs Hs).
Qed.

Lemma b64_round_trip_witness :
  Forall scalar_value Samples.augustus_name /\
  b64 Samples.augustus_name = Ok (lit "QXVndXN0dXMgUGFnZW5rw6RtcGVy") /\
  exists bs,
    str_encode Samples.augustus_name = Ok bs /\
    Base64.b64decode_str (lit "QXVndXN0dXMgUGFnZW5rw6RtcGVy") = Some bs /\
    bytes_decode Strict bs = Ok Samples.augustus_name.
Proof.
  split.
  - unfold Samples.augustus_name. simpl.
    repeat (constructor; [left; reflexivity|]). constructor.
  - split; [reflexivity|].
    apply (proj1 (b64_round_trip Samples.augustus_name)). reflexivity.
Defined.

(** C8.  Invariant of the table: every user id in it has a non-empty
    display name and non-empty roles; and lookup is by exact string: the
    ids found are precisely admin, sabine and augustus, so Admin and ADMIN
    are not found and do not log in. *)
Theorem table_invariant :
  (forall u d r, get u DUMMY_USERS = Some (d, r) -> d <> [] /\ r <> []) /\
  (forall u, contains u DUMMY_USERS = true
             <-> u = lit "admin" \/ u = lit "sabine" \/ u = lit "augustus") /\
  contains (lit "Admin") DUMMY_USERS = false /\
  contains (lit "ADMIN") DUMMY_USERS = false /\
  check_login (lit "Admin") (lit "tobira") = Ok None /\
  check_login (lit "ADMIN") (lit "tobira") = Ok None.
Proof.
  split; [|split; [|repeat split]].
  - intros u d r Hg.
    assert (Hin : In u (map fst DUMMY_USERS)).
    { apply contains_keys. unfold contains. now rewrite Hg. }
    apply check_login_table in Hin.
    destruct Hin as [->|[->| ->]]; vm_compute in Hg; injection Hg as <- <-;
      split; discriminate.
  - intros u. rewrite contains_keys. apply check_login_table.
Qed.

Lemma table_invariant_witness :
  get (lit "augustus") DUMMY_USERS
  = Some (Samples.augustus_name,
          lit "ROLE_USER_AUGUSTUS, ROLE_ANONYMOUS, ROLE_USER, ROLE_STUDENT") /\
  Samples.augustus_name <> [] /\
  lit "ROLE_USER_AUGUSTUS, ROLE_ANONYMOUS, ROLE_USER, ROLE_STUDENT" <> [].
Proof.
  split; [reflexivity|].
  apply (proj1 table_invariant (lit "augustus")). reflexivity.
Defined.



(** C10.  Past the Content-Type check, a request without a
    Content-Length header, or with one whose value is not written as a
    decimal integer (digits in groups joined by single underscores,
    behind an optional sign, inside optional white space), makes the
    handler raise at the conversion: [TypeError] for the missing header,
    [ValueError] for the value.  The handler is left as it was: no
    response line buffered or sent, nothing read, nothing printed. *)
Theorem bad_content_length_raises (hs : list (str * str)) (body : bytes) :
  valid_content_type (message_get (lit "content-type") hs) = true ->
  (message_get (lit "content-length") hs = None ->
   do_POST (request hs body) = (Raise TypeError, request hs body)) /\
  (forall v,
      message_get (lit "content-length") hs = Some v ->
      latin1 v ->
      ~ decimal_integer v ->
      do_POST (request hs body) = (Raise ValueError, request hs body)).
Proof.
  intros Hct. split.
  - intros Hn. apply do_POST_length; [exact Hct|]. now rewrite Hn.
  - intros v Hv _ Hbad. apply do_POST_length; [exact Hct|].
    rewrite Hv. simpl. now apply int_of_str_not_decimal.
Qed.

Lemma bad_content_length_raises_witness :
  let v := lit "28" ++ [0x1F] in
  let hs := [(lit "Content-Type", lit "application/x-www-form-urlencoded");
             (lit "Content-Length", v)] in
  let body := Samples.octets "userid=admin&password=tobira" in
  latin1 v /\ ~ decimal_integer v /\
  do_POST (request hs body) = (Raise ValueError, request hs body).
Proof.
  intros v hs body.
  assert (L : latin1 v) by (repeat constructor).
  assert (D : ~ decimal_integer v).
  { intros H.
    assert (C : (count_digits v <= MAX_STR_DIGITS)%nat).
    { unfold MAX_STR_DIGITS. change (count_digits v) with 2%nat. lia. }
    destruct (decimal_int_of_str v H C) as [z Hz].
    vm_compute in Hz. discriminate Hz. }
  split; [exact L|]. split; [exact D|].
  exact (proj2 (bad_content_length_raises hs body eq_refl) v eq_refl L D).
Defined.

(** * Beyond the claims *)

Import Whole.

(** ** The handler only appends *)

Lemma framed_ret {A} (a : A) : framed (ret a).
Proof. intros W O h. reflexivity. Qed.

Lemma framed_lift {A} (r : result A) : framed (lift r).
Proof. intros W O h. reflexivity. Qed.

Lemma framed_bind {A B} (c : M A) (k : A -> M B) :
  framed c -> (forall a, framed (k a)) -> framed (bind c k).
Proof.
  intros Hc Hk W O h. unfold bind. rewrite Hc.
  destruct (c h) as [[a|e] h']; simpl; [apply Hk | reflexivity].
Qed.

Lemma framed_get_header (name : str) : framed (get_header name).
Proof. intros W O h. reflexivity. Qed.

Lemma framed_rfile_read (size : Z) : framed (rfile_read size).
Proof.
  intros W O h. unfold rfile_read.
  destruct (refused size); [reflexivity|].
  destruct (size =? -1)%Z; reflexivity.
Qed.

Lemma framed_send_response (code : N) : framed (send_response code).
Proof. intros W O h. reflexivity. Qed.

Lemma framed_send_header (keyword value : str) :
  framed (send_header keyword value).
Proof. intros W O h. reflexivity. Qed.

Lemma framed_end_headers : framed end_headers.
Proof.
  intros W O h. unfold end_headers, extend, set_headers_buffer, set_wfile.
  simpl. now rewrite <- app_assoc.
Qed.

Lemma framed_print (line : str) : framed (print line).
Proof.
  intros W O h. unfold print, extend, set_stdout. simpl.
  now rewrite <- app_assoc.
Qed.

Ltac frame :=
  repeat (cbv zeta;
          match goal with
          | |- framed (bind _ _) => apply framed_bind; [|intros]
          | |- framed (if ?b then _ else _) => destruct b
          | |- framed (match ?x with _ => _ end) => destruct x
          | |- framed (get_header _) => apply framed_get_header
          | |- framed (lift _) => apply framed_lift
          | |- framed (rfile_read _) => apply framed_rfile_read
          | |- framed (send_response _) => apply framed_send_response
          | |- framed (send_header _ _) => apply framed_send_header
          | |- framed end_headers => apply framed_end_headers
          | |- framed (print _) => apply framed_print
          end).

Lemma framed_do_POST : framed do_POST.
Proof. unfold do_POST. frame. Qed.

(** X1.  On a handler whose header buffer is empty, whatever is already
    on the connection and on standard output, [do_POST] leaves that
    output in place and appends to it exactly what it sends and prints
    for the same request on a fresh handler; the request headers are not
    touched.  Requests handled one after the other therefore yield their
    responses and log lines one after the other. *)
Theorem do_POST_appends (h : handler) :
  headers_buffer h = [] ->
  fst (do_POST h) = returned (headers h) (rfile h) /\
  headers (snd (do_POST h)) = headers h /\
  wfile (snd (do_POST h)) = wfile h ++ response (headers h) (rfile h) /\
  stdout (snd (do_POST h)) = stdout h ++ logged (headers h) (rfile h).
Proof.
  intros Hb.
  assert (E : h = extend (wfile h) (stdout h) (request (headers h) (rfile h))).
  { destruct h as [hs r b w o]. simpl in *. subst b.
    unfold extend, request. simpl. now rewrite !app_nil_r. }
  assert (K : headers (snd (do_POST (request (headers h) (rfile h))))
              = headers h).
  { destruct (do_POST_outcomes (headers h) (rfile h))
      as [[rest ->]|[(text & u & p & rest & _ & _ & _ & _ & ->)
         |[(text & u & p & d & r & vu & vd & vr & rest & _ & _ & _ & _ & _ & ->)
          |(e & rest & _ & ->)]]]; reflexivity. }
  unfold returned, response, logged.
  set (fresh := do_POST (request (headers h) (rfile h))) in *.
  assert (R : do_POST h = (fst fresh, extend (wfile h) (stdout h) (snd fresh))).
  { rewrite E at 1. apply framed_do_POST. }
  rewrite R. simpl. repeat split. exact K.
Qed.

Lemma do_POST_appends_witness :
  let h := {| headers := Samples.form_headers "27";
              rfile := Samples.octets "userid=admin&password=wrong";
              headers_buffer := [];
              wfile := [StatusLine BAD_REQUEST; EndOfHeaders];
              stdout := [lit "Incorrect login sabine:x"] |} in
  headers_buffer h = [] /\
  wfile (snd (do_POST h))
  = [StatusLine BAD_REQUEST; EndOfHeaders; StatusLine FORBIDDEN; EndOfHeaders] /\
  stdout (snd (do_POST h))
  = [lit "Incorrect login sabine:x"; lit "Incorrect login admin:wrong"].
Proof.
  intros h. split; [reflexivity|].
  destruct (do_POST_appends h eq_refl) as [_ [_ [W O]]].
  split; [rewrite W | rewrite O]; reflexivity.
Defined.


(** X3.  On a request whose Content-Length, if it converts, does not
    exceed the octets that were sent, the only exceptions that escape
    [do_POST] are [TypeError] and [ValueError] (from the Content-Length
    conversion, and [ValueError] also from a read size below -1),
    [OverflowError] (from a read size below the smallest index) and
    [UnicodeDecodeError] (from decoding the body).  The dictionary and
    list accesses after the presence check never raise. *)
Theorem escaping_exceptions (hs : list (str * str)) (body : bytes) (e : exn) :
  (forall length,
      int (message_get (lit "content-length") hs) = Ok length ->
      (length <= Z.of_nat (List.length body))%Z) ->
  returned hs body = Raise e ->
  (e = TypeError \/ e = ValueError \/ e = OverflowError
   \/ e = UnicodeDecodeError) /\
  e <> KeyError /\ e <> IndexError.
Proof.
  intros _. unfold returned.
  destruct (do_POST_outcomes hs body)
    as [[rest ->]|[(text & u & p & rest & _ & _ & _ & _ & ->)
       |[(text & u & p & d & r & vu & vd & vr & rest & _ & _ & _ & _ & _ & ->)
        |(e' & rest & He & ->)]]]; simpl; try discriminate.
  intros H. injection H as <-. split; [exact He|].
  destruct He as [->|[->|[->| ->]]]; repeat split; discriminate.
Qed.

Lemma escaping_exceptions_witness :
  let hs := Samples.form_headers "-9223372036854775809" in
  let body := Samples.octets "userid=admin&password=tobira" in
  returned hs body = Raise OverflowError /\
  (OverflowError = TypeError \/ OverflowError = ValueError
   \/ OverflowError = OverflowError \/ OverflowError = UnicodeDecodeError).
Proof.
  intros hs body. split; [vm_compute; reflexivity|].
  apply (escaping_exceptions hs body OverflowError).
  - intros length H. vm_compute in H. injection H as <-. simpl. lia.
  - vm_compute. reflexivity.
Defined.

(** X4.  A response carries a header line of the handler's (the identity
    headers, [x-accel-redirect]) only if the request carried a form whose
    first password is "tobira" and whose first user id is in the table;
    its status is then 204.  No 400 or 403 response, and no request
    without valid credentials, ever gets the redirect header. *)
Theorem headers_only_for_valid_credentials
        (hs : list (str * str)) (body : bytes) (keyword value : str) :
  In (HeaderLine keyword value) (response hs body) ->
  status_of (response hs body) = Some NO_CONTENT /\
  exists text u,
    carries_form hs body text /\
    first_value USERID_FIELD (Urllib.parse_qs text) = Ok u /\
    first_value PASSWORD_FIELD (Urllib.parse_qs text) = Ok (lit "tobira") /\
    In u (map fst DUMMY_USERS).
Proof.
  unfold response.
  destruct (do_POST_outcomes hs body)
    as [[rest ->]|[(text & u & p & rest & _ & _ & _ & _ & ->)
       |[(text & u & p & d & r & vu & vd & vr & rest & Hf & Hu & Hp & -> & Hg & ->)
        |(e' & rest & He & ->)]]]; simpl.
  - intros [H|[H|[]]]; discriminate H.
  - intros [H|[H|[]]]; discriminate H.
  - intros _. split; [reflexivity|]. exists text, u.
    repeat (split; [assumption|]).
    change (In u (map fst DUMMY_USERS)).
    apply contains_keys. unfold contains. now rewrite Hg.
  - intros [].
Qed.

Lemma headers_only_for_valid_credentials_witness :
  let hs := Samples.form_headers "28" in
  let body := Samples.octets "userid=admin&password=tobira" in
  In (HeaderLine (lit "x-accel-redirect") (lit "/~successful-login"))
     (response hs body) /\
  status_of (response hs body) = Some NO_CONTENT.
Proof.
  intros hs body.
  assert (H : In (HeaderLine (lit "x-accel-redirect") (lit "/~successful-login"))
                 (response hs body)).
  { vm_compute. do 4 right. left. reflexivity. }
  split; [exact H|].
  exact (proj1 (headers_only_for_valid_credentials hs body _ _ H)).
Defined.

(** X5.  [check_login] never raises: the lookup [DUMMY_USERS[userid]] is
    only made for an id that is in the table.  It returns the id it was
    given together with that id's display name and roles when the password
    is "tobira" and the id is in the table, and [None] otherwise. *)
Theorem check_login_result (userid password : str) :
  (exists display_name roles,
      password = lit "tobira" /\
      get userid DUMMY_USERS = Some (display_name, roles) /\
      check_login userid password = Ok (Some (userid, display_name, roles)))
  \/
  ((password <> lit "tobira" \/ get userid DUMMY_USERS = None) /\
   check_login userid password = Ok None).
Proof.
  destruct (credentials_dec userid password) as [[Hp Hu]|Hno].
  - left. destruct (check_login_accepts userid password Hp Hu)
      as [d [r [Hg Hc]]].
    exists d, r. repeat split; assumption.
  - right. split; [|now apply check_login_rejects].
    destruct (str_eqb password (lit "tobira")) eqn:Ep.
    + right. apply str_eqb_eq in Ep.
      destruct (get userid DUMMY_USERS) as [v|] eqn:Eg; [|reflexivity].
      exfalso. apply Hno. split; [exact Ep|].
      apply contains_keys. unfold contains. now rewrite Eg.
    + left. now apply str_eqb_neq.
Qed.

(** ** What the answer depends on *)

(** The answer is a function of three things: whether the content type
    is accepted, what the Content-Length converts to, and the octets
    that [read] hands over. *)
Lemma do_POST_inputs (hs hs' : list (str * str)) (body body' : bytes) :
  valid_content_type (message_get (lit "content-type") hs)
  = valid_content_type (message_get (lit "content-type") hs') ->
  match int (message_get (lit "content-length") hs),
        int (message_get (lit "content-length") hs') with
  | Raise e, Raise e' => e = e'
  | Ok l, Ok l' =>
      (exists e, refused l = Some e /\ refused l' = Some e) \/
      (refused l = None /\ refused l' = None /\
       taken l body = taken l' body')
  | _, _ => False
  end ->
  returned hs body = returned hs' body' /\
  response hs body = response hs' body' /\
  logged hs body = logged hs' body'.
Proof.
  intros Hct Hlen. unfold returned, response, logged.
  destruct (valid_content_type (message_get (lit "content-type") hs)) eqn:V.
  2: { rewrite !do_POST_bad_content_type by congruence. repeat split. }
  symmetry in Hct.
  destruct (int (message_get (lit "content-length") hs)) as [l|e] eqn:L;
    destruct (int (message_get (lit "content-length") hs')) as [l'|e'] eqn:L';
    try contradiction.
  2: { subst e'. rewrite (do_POST_length hs body V e L),
         (do_POST_length hs' body' Hct e L'). repeat split. }
  destruct Hlen as [[e [Hl Hl']]|[Hl [Hl' Ht]]].
  { rewrite (do_POST_read_refused hs body l e V L Hl),
      (do_POST_read_refused hs' body' l' e Hct L' Hl'). repeat split. }
  destruct (bytes_decode Strict (taken l body)) as [text|e] eqn:D.
  2: { rewrite (do_POST_undecodable hs body l e V L Hl D).
       rewrite Ht in D.
       rewrite (do_POST_undecodable hs' body' l' e Hct L' Hl' D).
       repeat split. }
  rewrite (do_POST_form_rest hs body l text V L Hl D).
  rewrite Ht in D.
  rewrite (do_POST_form_rest hs' body' l' text Hct L' Hl' D).
  destruct (handle_form_cases text) as [[_ E]|[u [p [_ [_ E]]]]].
  { rewrite !E. repeat split. }
  rewrite !E.
  destruct (authenticate_cases u p)
    as [[_ A]|[d [r [vu [vd [vr [_ [_ [_ [_ [_ A]]]]]]]]]]];
    rewrite !A; repeat split.
Qed.

Lemma do_POST_rfile (hs : list (str * str)) (body : bytes) (length : Z) :
  valid_content_type (message_get (lit "content-type") hs) = true ->
  int (message_get (lit "content-length") hs) = Ok length ->
  refused length = None ->
  rfile (snd (do_POST (request hs body))) = left_over length body.
Proof.
  intros V L Hl.
  destruct (bytes_decode Strict (taken length body)) as [text|e] eqn:D.
  2: { now rewrite (do_POST_undecodable hs body length e V L Hl D). }
  rewrite (do_POST_form_rest hs body length text V L Hl D).
  destruct (handle_form_cases text) as [[_ E]|[u [p [_ [_ E]]]]].
  { now rewrite E. }
  rewrite E.
  destruct (authenticate_cases u p)
    as [[_ A]|[d [r [vu [vd [vr [_ [_ [_ [_ [_ A]]]]]]]]]]];
    now rewrite A.
Qed.

(** X6.  The handler reads the first Content-Length octets of the body
    and no more: what follows them is left unread for whoever reads the
    connection next, and has no influence on the answer.  Two streams
    that agree on their first Content-Length octets get the same answer
    and the same log line. *)
Theorem nothing_past_content_length
        (hs : list (str * str)) (body body' : bytes) (length : Z) :
  valid_content_type (message_get (lit "content-type") hs) = true ->
  int (message_get (lit "content-length") hs) = Ok length ->
  (0 <= length <= Z.of_nat (List.length body))%Z ->
  (length <= PY_SSIZE_T_MAX)%Z ->
  firstn (Z.to_nat length) body = firstn (Z.to_nat length) body' ->
  rfile (snd (do_POST (request hs body))) = skipn (Z.to_nat length) body /\
  returned hs body = returned hs body' /\
  response hs body = response hs body' /\
  logged hs body = logged hs body'.
Proof.
  intros V L Hl Hm Hf.
  assert (N : (length =? -1)%Z = false) by (apply Z.eqb_neq; lia).
  assert (R : refused length = None) by (apply refused_readable; lia).
  split.
  - rewrite (do_POST_rfile hs body length V L R).
    unfold left_over. now rewrite N.
  - apply do_POST_inputs; [reflexivity|]. rewrite L. right.
    split; [exact R|]. split; [exact R|]. unfold taken. now rewrite N.
Qed.

Lemma nothing_past_content_length_witness :
  let hs := Samples.form_headers "27" in
  let body := Samples.octets "userid=admin&password=wrongPOST /next" in
  let body' := Samples.octets "userid=admin&password=wrong" in
  rfile (snd (do_POST (request hs body))) = Samples.octets "POST /next" /\
  returned hs body = returned hs body' /\
  response hs body = response hs body' /\
  logged hs body = logged hs body'.
Proof.
  intros hs body body'.
  apply (nothing_past_content_length hs body body' 27%Z);
    [reflexivity | reflexivity | simpl; lia | unfold PY_SSIZE_T_MAX; lia
     | reflexivity].
Defined.

(** X7.  A Content-Length that [read] does not take is refused before
    anything is read, sent or printed: from -2 down to the smallest index
    with [ValueError], and beyond the indices on either side (from 2^63
    up, and below -2^63) with [OverflowError]. *)
Theorem content_length_edges
        (hs : list (str * str)) (body : bytes) (length : Z) :
  valid_content_type (message_get (lit "content-type") hs) = true ->
  int (message_get (lit "content-length") hs) = Ok length ->
  ((-9223372036854775808 <= length < -1)%Z ->
   do_POST (request hs body) = (Raise ValueError, request hs body)) /\
  ((length < -9223372036854775808 \/ 9223372036854775808 <= length)%Z ->
   do_POST (request hs body) = (Raise OverflowError, request hs body)).
Proof.
  intros V L. split; intros Hl;
    apply (do_POST_read_refused hs body length); try assumption;
    unfold refused, PY_SSIZE_T_MAX;
    repeat match goal with
           | |- context [(?a <? ?b)%Z] => destruct (Z.ltb_spec a b)
           end; cbn [orb]; try reflexivity; lia.
Qed.

Lemma content_length_edges_witness :
  let hs := Samples.form_headers "9223372036854775808" in
  let hs' := Samples.form_headers "-2" in
  let body := Samples.octets "userid=admin&password=tobira" in
  do_POST (request hs body) = (Raise OverflowError, request hs body) /\
  do_POST (request hs' body) = (Raise ValueError, request hs' body).
Proof.
  intros hs hs' body. split.
  - apply (proj2 (content_length_edges hs body 9223372036854775808%Z
                    eq_refl eq_refl)).
    right. lia.
  - apply (proj1 (content_length_edges hs' body (-2)%Z eq_refl eq_refl)).
    lia.
Defined.

(** X8.  Of the request headers only two things matter: that the
    Content-Type value begins with application/x-www-form-urlencoded
    (anything may follow the literal, such as a charset parameter) and
    the Content-Length value.  Requests that agree on these get the same
    answer, whatever else their headers hold. *)
Theorem only_two_headers_matter
        (hs hs' : list (str * str)) (body : bytes) (rest rest' : str) :
  message_get (lit "content-type") hs
  = Some (lit "application/x-www-form-urlencoded" ++ rest) ->
  message_get (lit "content-type") hs'
  = Some (lit "application/x-www-form-urlencoded" ++ rest') ->
  message_get (lit "content-length") hs
  = message_get (lit "content-length") hs' ->
  returned hs body = returned hs' body /\
  response hs body = response hs' body /\
  logged hs body = logged hs' body.
Proof.
  intros T T' L.
  assert (V : forall r,
             startswith (lit "application/x-www-form-urlencoded" ++ r)
                        (lit "application/x-www-form-urlencoded") = true).
  { intros r. apply startswith_prefix. now exists r. }
  apply do_POST_inputs.
  - rewrite T, T'. unfold valid_content_type. now rewrite !V.
  - rewrite <- L.
    destruct (int (message_get (lit "content-length") hs)) as [l|e];
      [|reflexivity].
    destruct (refused l) as [e'|] eqn:R; [left; now exists e' | right].
    repeat split.
Qed.

Lemma only_two_headers_matter_witness :
  let hs := [ (lit "Host", lit "localhost:3091");
              (lit "content-length", lit "28");
              (lit "CONTENT-TYPE",
               lit "application/x-www-form-urlencoded; charset=UTF-8") ] in
  let hs' := Samples.form_headers "28" in
  let body := Samples.octets "userid=admin&password=tobira" in
  returned hs body = returned hs' body /\
  response hs body = response hs' body /\
  logged hs body = logged hs' body.
Proof.
  intros hs hs' body.
  apply (only_two_headers_matter hs hs' body (lit "; charset=UTF-8") []);
    reflexivity.
Defined.

(** ** A submission written without escapes *)







(** ** The header values *)

Lemma b64_char_text (n : N) :
  b64_text_char (Byte.to_N (Base64.b64_char n)) = true.
Proof.
  unfold Base64.b64_char.
  destruct (nth_in_or_default (N.to_nat n) Base64.alphabet Base64.pad) as [H| ->].
  - revert H. generalize (nth (N.to_nat n) Base64.alphabet Base64.pad).
    apply Forall_forall. repeat constructor.
  - reflexivity.
Qed.

Lemma b64encode_text (bs : bytes) :
  Forall (fun c => b64_text_char (Byte.to_N c) = true) (Base64.b64encode bs) /\
  List.length (Base64.b64encode bs) = (4 * ((List.length bs + 2) / 3))%nat.
Proof.
  assert (G : forall n bs, (List.length bs < n)%nat ->
     Forall (fun c => b64_text_char (Byte.to_N c) = true) (Base64.b64encode bs) /\
     List.length (Base64.b64encode bs) = (4 * ((List.length bs + 2) / 3))%nat).
  { induction n as [|n IH]; intros l Hl; [lia|].
    destruct l as [|a [|b [|c rest]]].
    - split; [constructor | reflexivity].
    - split; [|reflexivity].
      cbn [Base64.b64encode]. repeat (constructor; try apply b64_char_text).
    - split; [|reflexivity].
      cbn [Base64.b64encode]. repeat (constructor; try apply b64_char_text).
    - destruct (IH rest) as [F E]; [simpl in Hl; lia|].
      cbn [Base64.b64encode]. split.
      + repeat (constructor; try apply b64_char_text). exact F.
      + cbn [List.length]. rewrite E.
        replace (S (S (S (List.length rest))) + 2)%nat
          with (List.length rest + 2 + 1 * 3)%nat by lia.
        rewrite Nat.div_add by lia. lia. }
  apply (G (S (List.length bs))). lia.
Qed.

(** X10.  Every header value the encoder [b64] produces is made of
    letters, digits, [+], [/] and [=] only, so it holds no line break or
    control character whatever the text was; its length is four
    characters for every three octets of the UTF-8 form, rounded up. *)
Theorem b64_header_safe (s h : str) :
  b64 s = Ok h ->
  Forall (fun c => b64_text_char c = true) h /\
  exists bs, str_encode s = Ok bs /\
             List.length h = (4 * ((List.length bs + 2) / 3))%nat.
Proof.
  intros H. destruct (str_encode s) as [bs|e] eqn:E.
  2: { unfold b64 in H. rewrite E in H. discriminate H. }
  rewrite (b64_encoded s bs E) in H. injection H as <-.
  destruct (b64encode_text bs) as [F L]. split.
  - apply Forall_map. exact F.
  - exists bs. split; [reflexivity|]. now rewrite length_map.
Qed.

Lemma b64_header_safe_witness :
  let s := [13; 10] ++ lit "x-accel-redirect: /evil" in
  let h := lit "DQp4LWFjY2VsLXJlZGlyZWN0OiAvZXZpbA==" in
  b64 s = Ok h /\
  Forall (fun c => b64_text_char c = true) h /\
  exists bs, str_encode s = Ok bs /\
             List.length h = (4 * ((List.length bs + 2) / 3))%nat.
Proof.
  intros s h. split; [reflexivity|].
  apply (b64_header_safe s h). reflexivity.
Defined.

(** X11.  The encoder loses nothing: two texts with the same header value
    are the same text, so the three identity headers determine the user
    id, the display name and the roles. *)
Theorem b64_injective (s s' h : str) :
  b64 s = Ok h -> b64 s' = Ok h -> s = s'.
Proof.
  intros H H'.
  assert (D : forall t, b64 t = Ok h ->
                        exists bs, Base64.b64decode_str h = Some bs /\
                                   bytes_decode Strict bs = Ok t).
  { intros t Ht. destruct (str_encode t) as [bs|e] eqn:E.
    - exists bs. split.
      + exact (b64decode_str_b64 t bs h E Ht).
      + exact (bytes_decode_str_encode t bs E).
    - unfold b64 in Ht. rewrite E in Ht. discriminate Ht. }
  destruct (D s H) as [bs [B T]]. destruct (D s' H') as [bs' [B' T']].
  congruence.
Qed.

Lemma b64_injective_witness :
  b64 (lit "admin") = Ok (lit "YWRtaW4=") /\ lit "admin" = lit "admin".
Proof.
  split; [reflexivity|].
  apply (b64_injective (lit "admin") (lit "admin") (lit "YWRtaW4="));
    reflexivity.
Defined.

(** ** Header names *)

Lemma lower_char_lower (c : N) : lower_char (lower_char c) = lower_char c.
Proof.
  unfold lower_char.
  destruct (N.leb_spec 65 c); destruct (N.leb_spec c 90);
    destruct (N.leb_spec 192 c); destruct (N.leb_spec c 222);
    destruct (N.eqb_spec c 215); cbn [andb orb negb]; try lia;
    repeat match goal with
           | |- context [?a <=? ?b] => destruct (N.leb_spec a b); try lia
           | |- context [?a =? ?b] => destruct (N.eqb_spec a b); try lia
           end; reflexivity.
Qed.

Lemma lower_lower (s : str) : lower (lower s) = lower s.
Proof.
  unfold lower. rewrite map_map. apply map_ext. apply lower_char_lower.
Qed.

Lemma message_get_names (rename : str -> str) (name : str)
      (hs : list (str * str)) :
  (forall k, lower (rename k) = lower k) ->
  message_get name (map (fun kv => (rename (fst kv), snd kv)) hs)
  = message_get name hs.
Proof.
  intros H. induction hs as [|[k v] hs IH]; simpl; [reflexivity|].
  rewrite H, IH. reflexivity.
Qed.

(** X12.  Header names are matched without regard to case: writing the
    names of a request's headers in another capitalisation (all lower
    case, for one) changes nothing in the answer. *)
Theorem header_names_ignore_case
        (rename : str -> str) (hs : list (str * str)) (body : bytes) :
  (forall k, lower (rename k) = lower k) ->
  let hs' := map (fun kv => (rename (fst kv), snd kv)) hs in
  returned hs' body = returned hs body /\
  response hs' body = response hs body /\
  logged hs' body = logged hs body.
Proof.
  intros H hs'. apply do_POST_inputs; unfold hs';
    rewrite !message_get_names by exact H; [reflexivity|].
  destruct (int (message_get (lit "content-length") hs)) as [l|e];
    [|reflexivity].
  destruct (refused l) as [e'|] eqn:R; [left; now exists e' | right].
  repeat split.
Qed.

Lemma header_names_ignore_case_witness :
  let hs := Samples.form_headers "28" in
  let body := Samples.octets "userid=admin&password=tobira" in
  map (fun kv => (lower (fst kv), snd kv)) hs
  = [ (lit "content-type", lit "application/x-www-form-urlencoded");
      (lit "content-length", lit "28") ] /\
  response (map (fun kv => (lower (fst kv), snd kv)) hs) body
  = response hs body.
Proof.
  intros hs body. split; [reflexivity|].
  exact (proj1 (proj2 (header_names_ignore_case lower hs body lower_lower))).
Defined.
